(** * Course catalogue back end (node-backend-server/index.js)

    A shallow embedding of the single-endpoint HTTP back end: the table
    resolver [getTableName], the five store adapters [putItemDB],
    [updateItemDB], [getItemDB], [getAllItemsDB], [deleteItemDB] and the
    action router [requestHandler].

    The two AWS SDK clients of the source ([cloudMapClient] and
    [documentClient]) are external services.  They are modelled as
    interfaces (type classes) over an abstract world; the program is written
    once against the interfaces.  Two instances are given: a reference
    key-value store with a fault oracle ([Cloud]), and a client that replays
    recorded responses ([Tape]). *)

From Stdlib Require Import ZArith String Ascii List Lia DecimalString.
From stdpp Require Import base option gmap strings list fin_maps.

Set Warnings "-register-all".
Local Open Scope string_scope.
Local Open Scope list_scope.
Local Open Scope Z_scope.

(** ** JavaScript values *)

(** Numbers.  Course ids are integers (spec, data model); the embedding
    keeps the integers, unbounded, and NaN.  Negative zero is identified
    with zero, the infinities and fractions are not represented. *)
Inductive number : Type :=
  | NaN
  | Int (z : Z).

(** The values that reach the program: query parameters parsed by the
    gateway (strings, arrays, nested objects, or absent), numbers read back
    from the store, and the literals of the source. *)
Inductive value : Type :=
  | VUndefined
  | VNull
  | VBool (b : bool)
  | VNum (n : number)
  | VStr (s : string)
  | VArr (elems : list value)
  | VObj (props : list (string * value)).

(** A thrown JavaScript error; only its [message] is observed by the source
    ([err.message]). *)
Record exn : Type := Error { message : string }.

(** Completion of a pure built-in that may throw. *)
Inductive completion (A : Type) : Type :=
  | Return (a : A)
  | Throw (e : exn).
Arguments Return {A} a.
Arguments Throw {A} e.

#[global] Instance number_eq_dec : EqDecision number.
Proof. solve_decision. Defined.

(** *** Number to string and string to number *)

(** Number::toString on an integer: all its decimal digits (as JavaScript
    prints them below 10^21; the integers the store holds are far below). *)
Definition Z_to_string (z : Z) : string := NilZero.string_of_int (Z.to_int z).

Definition Number_toString (n : number) : string :=
  match n with
  | NaN => "NaN"
  | Int z => Z_to_string z
  end.

Definition code (c : ascii) : Z := Z.of_N (N_of_ascii c).

(** StrWhiteSpaceChar, restricted to the ASCII ones. *)
Definition is_white (c : ascii) : bool :=
  let n := code c in
  (n =? 32) || ((9 <=? n) && (n <=? 13)).

Fixpoint trim_left (l : list ascii) : list ascii :=
  match l with
  | c :: l' => if is_white c then trim_left l' else l
  | [] => []
  end.

Definition trim (l : list ascii) : list ascii :=
  rev (trim_left (rev (trim_left l))).

Definition digit (c : ascii) : option Z :=
  let n := code c in
  if (48 <=? n) && (n <=? 57) then Some (n - 48) else None.

Fixpoint digits (acc : Z) (l : list ascii) : option Z :=
  match l with
  | [] => Some acc
  | c :: l' =>
      match digit c with
      | Some d => digits (10 * acc + d) l'
      | None => None
      end
  end.

Definition unsigned_digits (l : list ascii) : option Z :=
  match l with
  | [] => None
  | _ => digits 0 l
  end.

(** StringToNumber on the integer decimal literals: surrounding white space
    is dropped, the empty string is 0, an optional sign is followed by at
    least one decimal digit.  Every other string reads as NaN; the strings
    that JavaScript reads as other numbers (fractions, exponents, radix
    prefixes, Infinity) are outside the embedding, and no statement below
    rests on them. *)
Definition StringToNumber (s : string) : number :=
  match trim (list_ascii_of_string s) with
  | [] => Int 0
  | c :: l =>
      if (code c =? 43) then
        match unsigned_digits l with Some z => Int z | None => NaN end
      else if (code c =? 45) then
        match unsigned_digits l with Some z => Int (- z) | None => NaN end
      else
        match unsigned_digits (c :: l) with Some z => Int z | None => NaN end
  end.

(** *** Conversions and operators *)

(** [ToString], as used by template literals and by the built-ins that take
    a string. *)
Fixpoint ToString (v : value) : string :=
  match v with
  | VUndefined => "undefined"
  | VNull => "null"
  | VBool b => if b then "true" else "false"
  | VNum n => Number_toString n
  | VStr s => s
  | VArr l =>
      String.concat ","
        (List.map (fun x =>
                     match x with
                     | VUndefined | VNull => EmptyString
                     | _ => ToString x
                     end) l)
  | VObj _ => "[object Object]"
  end.

(** [Number(v)]. *)
Definition Number (v : value) : number :=
  match v with
  | VUndefined => NaN
  | VNull => Int 0
  | VBool b => if b then Int 1 else Int 0
  | VNum n => n
  | VStr s => StringToNumber s
  | VArr _ | VObj _ => StringToNumber (ToString v)
  end.

(** [typeof v]. *)
Definition typeof (v : value) : string :=
  match v with
  | VUndefined => "undefined"
  | VNull => "object"
  | VBool _ => "boolean"
  | VNum _ => "number"
  | VStr _ => "string"
  | VArr _ | VObj _ => "object"
  end.

(** ToBoolean: what [if (v)] and [!v] test. *)
Definition truthy (v : value) : bool :=
  match v with
  | VUndefined | VNull => false
  | VBool b => b
  | VNum NaN => false
  | VNum (Int z) => negb (z =? 0)
  | VStr s => negb (String.eqb s EmptyString)
  | VArr _ | VObj _ => true
  end.

(** [v !== 0]. *)
Definition strict_ne_zero (v : value) : bool :=
  match v with
  | VNum (Int 0) => false
  | _ => true
  end.

(** [v === "literal"], the comparison made by [switch]. *)
Definition strict_eq_str (v : value) (s : string) : bool :=
  match v with
  | VStr t => String.eqb t s
  | _ => false
  end.

(** *** decodeURIComponent *)

(** Strings are held as their UTF-8 bytes.  The decoder is the ECMAScript
    Decode algorithm with an empty reserved set, run as an automaton over
    the characters: an escape [%XX] below 0x80 yields that character; a
    lead octet announces a sequence of 2 to 4 escaped octets, which must be
    a well-formed UTF-8 encoding; anything else throws URIError. *)

Definition hex_digit (c : ascii) : option Z :=
  let n := code c in
  if (48 <=? n) && (n <=? 57) then Some (n - 48)
  else if (65 <=? n) && (n <=? 70) then Some (n - 55)
  else if (97 <=? n) && (n <=? 102) then Some (n - 87)
  else None.

(** Number of leading 1 bits of an octet (5 stands for "5 or more"). *)
Definition leading_ones (b : Z) : nat :=
  if b <? 128 then 0%nat
  else if b <? 192 then 1%nat
  else if b <? 224 then 2%nat
  else if b <? 240 then 3%nat
  else if b <? 248 then 4%nat
  else 5%nat.

Definition between (lo b hi : Z) : bool := (lo <=? b) && (b <=? hi).

(** Well-formed UTF-8 byte sequences of one code point (Unicode, table 3-7):
    no overlong forms, no surrogates, nothing above U+10FFFF. *)
Definition valid_utf8 (octets : list Z) : bool :=
  match octets with
  | [b0; b1] => between 194 b0 223 && between 128 b1 191
  | [b0; b1; b2] =>
      ((b0 =? 224) && between 160 b1 191
       || (between 225 b0 236 || between 238 b0 239) && between 128 b1 191
       || (b0 =? 237) && between 128 b1 159)
      && between 128 b2 191
  | [b0; b1; b2; b3] =>
      ((b0 =? 240) && between 144 b1 191
       || between 241 b0 243 && between 128 b1 191
       || (b0 =? 244) && between 128 b1 143)
      && between 128 b2 191 && between 128 b3 191
  | _ => false
  end.

Definition byte (b : Z) : ascii := ascii_of_N (Z.to_N b).

(** State of the decoder between two characters. *)
Inductive decoder : Type :=
  | Plain
  | Hex1 (octets : list Z) (more : nat)
  | Hex2 (octets : list Z) (more : nat) (hi : Z)
  | Cont (octets : list Z) (more : nat).

Definition URIError : exn := Error "URI malformed".

Fixpoint Decode (st : decoder) (l : list ascii) : completion (list ascii) :=
  match l with
  | [] =>
      match st with
      | Plain => Return []
      | _ => Throw URIError
      end
  | c :: l' =>
      match st with
      | Plain =>
          if code c =? 37 then Decode (Hex1 [] 0) l'
          else match Decode Plain l' with
               | Return out => Return (c :: out)
               | Throw e => Throw e
               end
      | Cont octets more =>
          if code c =? 37 then Decode (Hex1 octets more) l'
          else Throw URIError
      | Hex1 octets more =>
          match hex_digit c with
          | Some hi => Decode (Hex2 octets more hi) l'
          | None => Throw URIError
          end
      | Hex2 octets more hi =>
          match hex_digit c with
          | None => Throw URIError
          | Some lo =>
              let b := 16 * hi + lo in
              match octets with
              | [] =>
                  match leading_ones b with
                  | 0%nat =>
                      match Decode Plain l' with
                      | Return out => Return (byte b :: out)
                      | Throw e => Throw e
                      end
                  | 2%nat | 3%nat | 4%nat =>
                      Decode (Cont [b] (Nat.pred (leading_ones b))) l'
                  | _ => Throw URIError
                  end
              | _ =>
                  let octets' := (octets ++ [b])%list in
                  match more with
                  | 1%nat =>
                      if valid_utf8 octets' then
                        match Decode Plain l' with
                        | Return out => Return ((List.map byte octets') ++ out)%list
                        | Throw e => Throw e
                        end
                      else Throw URIError
                  | _ => Decode (Cont octets' (Nat.pred more)) l'
                  end
              end
          end
      end
  end.

(** [decodeURIComponent(v)]: the argument is converted with [ToString]. *)
Definition decodeURIComponent (v : value) : completion string :=
  match Decode Plain (list_ascii_of_string (ToString v)) with
  | Return out => Return (string_of_list_ascii out)
  | Throw e => Throw e
  end.

(** *** JSON.stringify *)

Definition hex_char (d : Z) : ascii :=
  if d <? 10 then byte (48 + d) else byte (87 + d).

(** QuoteJSONString without the surrounding quotes. *)
Fixpoint escape_json (l : list ascii) : list ascii :=
  match l with
  | [] => []
  | c :: l' =>
      let n := code c in
      let bs := byte 92 in
      (if n =? 34 then [bs; byte 34]
       else if n =? 92 then [bs; bs]
       else if n =? 8 then [bs; byte 98]
       else if n =? 12 then [bs; byte 102]
       else if n =? 10 then [bs; byte 110]
       else if n =? 13 then [bs; byte 114]
       else if n =? 9 then [bs; byte 116]
       else if n <? 32 then
         [bs; byte 117; byte 48; byte 48; hex_char (n / 16); hex_char (n mod 16)]
       else [c]) ++ escape_json l'
  end%list.

Definition QuoteJSONString (s : string) : string :=
  string_of_list_ascii
    (byte 34 :: escape_json (list_ascii_of_string s) ++ [byte 34])%list.

(** SerializeJSONProperty: [None] stands for the undefined result, which a
    list prints as null and an object leaves out. *)
Fixpoint SerializeJSONProperty (v : value) : option string :=
  match v with
  | VUndefined => None
  | VNull => Some "null"
  | VBool b => Some (if b then "true" else "false")
  | VNum NaN => Some "null"
  | VNum (Int z) => Some (Z_to_string z)
  | VStr s => Some (QuoteJSONString s)
  | VArr l =>
      Some ("[" +:+
            String.concat ","
              (List.map (fun x =>
                           match SerializeJSONProperty x with
                           | Some t => t
                           | None => "null"
                           end) l)
            +:+ "]")
  | VObj kvs =>
      Some ("{" +:+
            String.concat ","
              (List.flat_map (fun kv =>
                           match kv with
                           | (k, x) =>
                               match SerializeJSONProperty x with
                               | Some t => [QuoteJSONString k +:+ ":" +:+ t]
                               | None => []
                               end
                           end) kvs)
            +:+ "}")
  end.

(** [JSON.stringify({...})] on an object literal, given as its properties in
    source order. *)
Definition JSON_stringify (props : list (string * value)) : string :=
  match SerializeJSONProperty (VObj props) with
  | Some t => t
  | None => "undefined"
  end.

(** ** The SDK clients *)

(** A store item, a command key, a query object: attribute name to value. *)
Abbreviation object := (gmap string value).

(** [o.k]: a property that is absent reads as undefined. *)
Definition prop (o : object) (k : string) : value :=
  match o !! k with
  | Some v => v
  | None => VUndefined
  end.

(** A store item as the JavaScript object the document client returns.  Its
    properties come in the order of the map: the store fixes none. *)
Definition ObjectOf (o : object) : value := VObj (map_to_list o).

(** *** AWS Cloud Map *)

Record DiscoverInstancesCommand : Type := {
  NamespaceName : string;
  ServiceName : string;
  QueryParameters : gmap string string
}.

Record HttpInstanceSummary : Type := {
  Attributes : option (gmap string string)
}.

Record DiscoverInstancesOutput : Type := {
  Instances : option (list HttpInstanceSummary)
}.

Class ServiceDiscoveryClient (W : Type) : Type := {
  discover_instances :
    DiscoverInstancesCommand -> W -> completion DiscoverInstancesOutput * W
}.

(** *** DynamoDB document client *)

Record PutCommand : Type := {
  put_TableName : value;
  put_Item : object
}.

Record UpdateCommand : Type := {
  update_TableName : value;
  update_Key : object;
  UpdateExpression : string;
  ExpressionAttributeValues : object;
  ReturnValues : string
}.

Record GetCommand : Type := {
  get_TableName : value;
  get_Key : object
}.

Record ScanCommand : Type := {
  scan_TableName : value;
  ProjectionExpression : string
}.

Record DeleteCommand : Type := {
  delete_TableName : value;
  delete_Key : object
}.

Inductive PutCommandOutput : Type := PutOutput.
Inductive DeleteCommandOutput : Type := DeleteOutput.
Record UpdateCommandOutput : Type := { update_Attributes : option object }.
Record GetCommandOutput : Type := { Item : option object }.
Record ScanCommandOutput : Type := { Items : list object }.

Class DynamoDBDocumentClient (W : Type) : Type := {
  send_put : PutCommand -> W -> completion PutCommandOutput * W;
  send_update : UpdateCommand -> W -> completion UpdateCommandOutput * W;
  send_get : GetCommand -> W -> completion GetCommandOutput * W;
  send_scan : ScanCommand -> W -> completion ScanCommandOutput * W;
  send_delete : DeleteCommand -> W -> completion DeleteCommandOutput * W
}.

(** Every request sent through one of the two clients, in the order sent. *)
Inductive call : Type :=
  | Discover (c : DiscoverInstancesCommand)
  | Put (c : PutCommand)
  | Update (c : UpdateCommand)
  | Get (c : GetCommand)
  | Scan (c : ScanCommand)
  | Delete (c : DeleteCommand).

(** The calls that go to the store. *)
Definition is_store_call (c : call) : bool :=
  match c with
  | Discover _ => false
  | _ => true
  end.

(** ** Completion order of concurrent fetches *)

(** [Promise.all] over [N] pending fetches: the continuations run in the
    order the responses arrive.  An arrival order is a list of picks; each
    pick selects one of the fetches still pending (modulo their number), and
    what is left when the picks run out arrives in the order sent.  Every
    permutation is the result of some list of picks. *)
Fixpoint arrive {A : Type} (picks : list nat) (pending : list A) : list A :=
  match picks with
  | [] => pending
  | i :: picks' =>
      let j := (i mod length pending)%nat in
      match pending !! j with
      | Some x => x :: arrive picks' (delete j pending)
      | None => []
      end
  end.

(** ** The program *)

(** What the adapters return: the store's response, or the object
    [{error: err.message}]. *)
Inductive dbresult (A : Type) : Type :=
  | Fulfilled (response : A)
  | ErrorObject (error : string).
Arguments Fulfilled {A} response.
Arguments ErrorObject {A} error.

(** [r.error]: undefined on a store response and on an array. *)
Definition dot_error {A : Type} (r : dbresult A) : value :=
  match r with
  | Fulfilled _ => VUndefined
  | ErrorObject msg => VStr msg
  end.

Record HttpResponse : Type := {
  statusCode : Z;
  body : string
}.

Section Program.

Context {W : Type}.
Context `{!ServiceDiscoveryClient W} `{!DynamoDBDocumentClient W}.

(** The running server process: the outside world, the calls sent so far
    and the order in which concurrent responses will arrive. *)
Record process : Type := {
  world : W;
  calls : list call;
  arrivals : list nat
}.

(** An asynchronous computation run to completion. *)
Definition async (A : Type) : Type := process -> completion A * process.

Definition ret {A : Type} (a : A) : async A := fun p => (Return a, p).

Definition throw {A : Type} (e : exn) : async A := fun p => (Throw e, p).

Definition bind {A B : Type} (m : async A) (k : A -> async B) : async B :=
  fun p =>
    match m p with
    | (Return a, p') => k a p'
    | (Throw e, p') => (Throw e, p')
    end.

(** [try { m } catch (err) { handler err }]. *)
Definition try_catch {A : Type} (m : async A) (handler : exn -> async A)
  : async A :=
  fun p =>
    match m p with
    | (Return a, p') => (Return a, p')
    | (Throw e, p') => handler e p'
    end.

(** A built-in that may throw, run inside the computation. *)
Definition lift {A : Type} (c : completion A) : async A :=
  fun p => (c, p).

(** The process once call [c] has been sent and the world has become [w]. *)
Definition after (p : process) (w : W) (c : call) : process :=
  {| world := w; calls := calls p ++ [c]; arrivals := arrivals p |}.

(** [client.send(command)]: the world answers and the call is recorded. *)
Definition send {C R : Type} (op : C -> W -> completion R * W)
    (tag : C -> call) (command : C) : async R :=
  fun p =>
    let (r, w) := op command (world p) in
    (r, after p w (tag command)).

Fixpoint mapM {A B : Type} (f : A -> async B) (l : list A) : async (list B) :=
  match l with
  | [] => ret []
  | x :: l' =>
      bind (f x) (fun y => bind (mapM f l') (fun ys => ret (y :: ys)))
  end.

End Program.

Arguments process W : clear implicits.
Arguments after {W} p w c.
Arguments async W A : clear implicits.

Declare Scope async_scope.
Delimit Scope async_scope with async.
Notation "x <- m ;; k" := (bind m (fun x => k))
  (at level 100, m at next level, right associativity) : async_scope.

Section Server.

Context {W : Type}.
Context `{!ServiceDiscoveryClient W} `{!DynamoDBDocumentClient W}.

Local Open Scope async_scope.

Definition cloudMapClient_send (command : DiscoverInstancesCommand)
  : async W DiscoverInstancesOutput :=
  send discover_instances Discover command.

Definition findDbNameCommand : DiscoverInstancesCommand :=
  {| NamespaceName := "backend-services-namespace";
     ServiceName := "dynamodb-data-service";
     QueryParameters := {[ "name" := "dynamodb-table" ]} |}.

Definition TypeError_tablename : exn :=
  Error "Cannot read properties of undefined (reading 'tablename')".

(** Fetching the table name from the discovery service.  The call is not
    guarded: a failure of the discovery service is thrown to the caller,
    and so is reading [tablename] off an instance without attributes. *)
Definition getTableName : async W value :=
  response <- cloudMapClient_send findDbNameCommand ;;
  match Instances response with
  | Some (instance :: _) =>
      match Attributes instance with
      | Some attributes =>
          ret (match attributes !! "tablename" with
               | Some name => VStr name
               | None => VUndefined
               end)
      | None => throw TypeError_tablename
      end
  | Some [] | None => ret VNull
  end.

Definition putItemDB (courseObject : object) (tableName : value)
  : async W (dbresult PutCommandOutput) :=
  try_catch
    (let id := Number (prop courseObject "id") in
     coverArt <- lift (decodeURIComponent (prop courseObject "courseCoverArt")) ;;
     courseUrl <- lift (decodeURIComponent (prop courseObject "courseUrl")) ;;
     let command :=
       {| put_TableName := tableName;
          put_Item :=
            {[ "ID" := VNum id;
               "CourseName" := prop courseObject "courseName";
               "CoverArt" := VStr coverArt;
               "CourseUrl" := VStr courseUrl;
               "Author" := prop courseObject "courseAuthor" ]} |} in
     response <- send send_put Put command ;;
     ret (Fulfilled response))
    (fun err => ret (ErrorObject (message err))).

Definition updateItemDB (courseObject : object) (tableName : value)
  : async W (dbresult UpdateCommandOutput) :=
  try_catch
    (let id := Number (prop courseObject "id") in
     coverArt <- lift (decodeURIComponent (prop courseObject "courseCoverArt")) ;;
     courseUrl <- lift (decodeURIComponent (prop courseObject "courseUrl")) ;;
     let command :=
       {| update_TableName := tableName;
          update_Key := {[ "ID" := VNum id ]};
          UpdateExpression :=
            "SET CourseName = :name, CourseUrl = :url, CoverArt = :coverart, Author = :author";
          ExpressionAttributeValues :=
            {[ ":name" := prop courseObject "courseName";
               ":coverart" := VStr coverArt;
               ":url" := VStr courseUrl;
               ":author" := prop courseObject "courseAuthor" ]};
          ReturnValues := "ALL_NEW" |} in
     response <- send send_update Update command ;;
     ret (Fulfilled response))
    (fun err => ret (ErrorObject (message err))).

(** [null] is [None]. *)
Definition getItemDB (id : value) (tableName : value)
  : async W (option GetCommandOutput) :=
  if negb (truthy id) && strict_ne_zero id then ret None
  else
    try_catch
      (let command :=
         {| get_TableName := tableName;
            get_Key := {[ "ID" := VNum (Number id) ]} |} in
       response <- send send_get Get command ;;
       ret (Some response))
      (fun err => ret None).

(** [course.Item] on a response. *)
Definition dot_Item (course : GetCommandOutput) : value :=
  match Item course with
  | Some item => ObjectOf item
  | None => VUndefined
  end.

(** The continuation of one fetch: [if (course) coursesList.push(course.Item)]. *)
Definition push_course (coursesList : list value)
    (course : option GetCommandOutput) : list value :=
  match course with
  | Some response => coursesList ++ [dot_Item response]
  | None => coursesList
  end.

(** The fetches are sent in the order of [response.Items]; their
    continuations push in the order of arrival. *)
Definition getAllItemsDB (tableName : value)
  : async W (dbresult (list value)) :=
  try_catch
    (let command :=
       {| scan_TableName := tableName; ProjectionExpression := "ID" |} in
     response <- send send_scan Scan command ;;
     courses <- mapM (fun item => getItemDB (prop item "ID") tableName)
                     (Items response) ;;
     fun p =>
       let coursesList := foldl push_course [] (arrive (arrivals p) courses) in
       ret (Fulfilled coursesList) p)
    (fun err => ret (ErrorObject (message err))).

Definition deleteItemDB (id : value) (tableName : value)
  : async W (dbresult DeleteCommandOutput) :=
  try_catch
    (let command :=
       {| delete_TableName := tableName;
          delete_Key := {[ "ID" := VNum (Number id) ]} |} in
     response <- send send_delete Delete command ;;
     ret (Fulfilled response))
    (fun err => ret (ErrorObject (message err))).

(** The value of [allCourses] in the response body: an array, or the
    error object when its message is empty. *)
Definition allCourses_value (r : dbresult (list value)) : value :=
  match r with
  | Fulfilled l => VArr l
  | ErrorObject msg => VObj [("error", VStr msg)]
  end.

(** The response objects of the router, which the source writes out in
    place: a failure with its message, the message of a failed store
    operation, and a success naming the action. *)
Definition failure (status : Z) (msg : string) : HttpResponse :=
  {| statusCode := status;
     body := JSON_stringify [("success", VBool false); ("error", VStr msg)] |}.

Definition unable (requestAction : value) (error : value) : string :=
  "Unable to process request for " +:+ ToString requestAction +:+ ": "
    +:+ ToString error.

Definition succeeded (requestAction : value) : HttpResponse :=
  {| statusCode := 200;
     body := JSON_stringify [("success", VBool true);
                             ("action", requestAction)] |}.

(** The action router.  [None] is an absent query (undefined or null);
    an object, even an empty one, is [Some]. *)
Definition requestHandler (query : option object) : async W HttpResponse :=
  match query with
  | None => ret (failure 400 "Invalid Request: Action not provided")
  | Some requestData =>
      tableName <- getTableName ;;
      if negb (truthy tableName) then
        ret (failure 500 "Internal Server Error: Could not find the Database")
      else
        let requestAction := prop requestData "action" in
        let courseId := VNum (Number (prop requestData "id")) in
        if strict_eq_str requestAction "allCourses" then
          allCourses <- getAllItemsDB tableName ;;
          if truthy (dot_error allCourses) then
            ret (failure 500 (unable requestAction (dot_error allCourses)))
          else
            ret {| statusCode := 200;
                   body := JSON_stringify
                             [("success", VBool true);
                              ("action", requestAction);
                              ("allCourses", allCourses_value allCourses)] |}
        else if strict_eq_str requestAction "addCourse" then
          addCourse <- putItemDB requestData tableName ;;
          if truthy (dot_error addCourse) then
            ret (failure 500 (unable requestAction (dot_error addCourse)))
          else ret (succeeded requestAction)
        else if strict_eq_str requestAction "editCourse" then
          editCourse <- updateItemDB requestData tableName ;;
          if truthy (dot_error editCourse) then
            ret (failure 500 (unable requestAction (dot_error editCourse)))
          else ret (succeeded requestAction)
        else if strict_eq_str requestAction "removeCourse" then
          removeCourse <- deleteItemDB courseId tableName ;;
          if truthy (dot_error removeCourse) then
            ret (failure 500 (unable requestAction (dot_error removeCourse)))
          else ret (succeeded requestAction)
        else
          ret (failure 400
                 ("Invalid Request: Action " +:+ ToString requestAction
                  +:+ " " +:+ typeof requestAction +:+ " not found"))
  end.

End Server.

(** ** A reference store *)

(** The table of the lab: items keyed by the numeric attribute [ID].  The
    store is opaque to the program; this instance fixes what the statements
    about stored data mean.  Each request goes through three stages: the
    document client marshals its values (and throws on the values DynamoDB
    cannot hold), the transport may fail (the fault oracle, indexed by the
    number of requests sent so far), and the service validates and runs
    the operation.  Scans are assumed to fit one page. *)

Definition MAX_SAFE_INTEGER : Z := 9007199254740991.

Definition undefined_error : exn :=
  Error "Pass options.removeUndefinedValues=true to remove undefined values from map/array/set.".
Definition NaN_error : exn := Error "Special numeric value NaN is not allowed".
Definition unsafe_error (z : Z) : exn :=
  Error ("Number " +:+ Z_to_string z +:+
         (if 0 <=? z then " is greater than Number.MAX_SAFE_INTEGER. Use BigInt."
          else " is lesser than Number.MIN_SAFE_INTEGER. Use BigInt.")).

(** [convertToAttr] of the document client, as the error it throws, if any. *)
Fixpoint convertToAttr (v : value) : option exn :=
  match v with
  | VUndefined => Some undefined_error
  | VNum NaN => Some NaN_error
  | VNum (Int z) =>
      if (z <=? MAX_SAFE_INTEGER) && (- MAX_SAFE_INTEGER <=? z) then None
      else Some (unsafe_error z)
  | VArr l =>
      (fix all (l : list value) : option exn :=
         match l with
         | [] => None
         | x :: l' =>
             match convertToAttr x with
             | Some e => Some e
             | None => all l'
             end
         end) l
  | VObj kvs =>
      (fix all (kvs : list (string * value)) : option exn :=
         match kvs with
         | [] => None
         | (_, x) :: kvs' =>
             match convertToAttr x with
             | Some e => Some e
             | None => all kvs'
             end
         end) kvs
  | VNull | VBool _ | VStr _ => None
  end.

(** Marshalling an item, a key or the expression values. *)
Definition marshall (o : object) : option exn :=
  convertToAttr (ObjectOf o).

(** *** Expressions *)

Fixpoint split_on (sep : Z) (l : list ascii) : list (list ascii) :=
  match l with
  | [] => [[]]
  | c :: l' =>
      if code c =? sep then [] :: split_on sep l'
      else match split_on sep l' with
           | w :: ws => (c :: w) :: ws
           | [] => [[c]]
           end
  end.

Definition name_of (l : list ascii) : string := string_of_list_ascii (trim l).

(** A projection expression: attribute names separated by commas. *)
Definition parse_projection (e : string) : list string :=
  List.map name_of (split_on 44 (list_ascii_of_string e)).

(** One [path = :placeholder] action. *)
Definition parse_assignment (l : list ascii) : option (string * string) :=
  match split_on 61 l with
  | [lhs; rhs] =>
      match trim lhs, trim rhs with
      | _ :: _, _ :: _ => Some (name_of lhs, name_of rhs)
      | _, _ => None
      end
  | _ => None
  end.

Fixpoint sequence_option {A : Type} (l : list (option A)) : option (list A) :=
  match l with
  | [] => Some []
  | Some x :: l' =>
      match sequence_option l' with
      | Some xs => Some (x :: xs)
      | None => None
      end
  | None :: _ => None
  end.

(** An update expression made of one SET clause. *)
Definition parse_update (e : string) : option (list (string * string)) :=
  match list_ascii_of_string e with
  | s :: e' :: t :: sp :: rest =>
      if (code s =? 83) && (code e' =? 69) && (code t =? 84) && (code sp =? 32)
      then sequence_option (List.map parse_assignment (split_on 44 rest))
      else None
  | _ => None
  end.

(** *** The service *)

Abbreviation table := (gmap Z object).

Record Cloud : Type := {
  registry : completion DiscoverInstancesOutput;
  tables : gmap string (gmap Z object);
  clock : nat;
  faults : nat -> option string
}.

Definition ResourceNotFound : exn := Error "Requested resource not found".
Definition KeyMismatch : exn :=
  Error "The provided key element does not match the schema".
Definition MissingKey : exn :=
  Error "One or more parameter values were invalid: Missing the key ID in the item".
Definition InvalidExpression : exn := Error "Invalid UpdateExpression".
Definition KeyUpdate : exn :=
  Error "One or more parameter values were invalid: Cannot update attribute ID. This attribute is part of the key".

(** The table a request names. *)
Definition find_table (name : value) (ts : gmap string (gmap Z object))
  : option (string * gmap Z object) :=
  match name with
  | VStr t =>
      match ts !! t with
      | Some tb => Some (t, tb)
      | None => None
      end
  | _ => None
  end.

(** The key of a request: exactly the attribute [ID], a number. *)
Definition key_of (k : object) : option Z :=
  match k !! "ID" with
  | Some (VNum (Int z)) => if (size k =? 1)%nat then Some z else None
  | _ => None
  end.

(** The service after one more request, with tables [ts]. *)
Definition sent (w : Cloud) (ts : gmap string (gmap Z object)) : Cloud :=
  {| registry := registry w; tables := ts;
     clock := S (clock w); faults := faults w |}.

(** One request: marshal, transport, serve. *)
Definition request {R : Type} (inputs : list object) (w : Cloud)
    (serve : gmap string (gmap Z object) ->
             completion (R * gmap string (gmap Z object)))
  : completion R * Cloud :=
  match omap marshall inputs with
  | e :: _ => (Throw e, sent w (tables w))
  | [] =>
      match faults w (clock w) with
      | Some msg => (Throw (Error msg), sent w (tables w))
      | None =>
          match serve (tables w) with
          | Return (r, ts) => (Return r, sent w ts)
          | Throw e => (Throw e, sent w (tables w))
          end
      end
  end.

Definition cloud_put (c : PutCommand) (w : Cloud)
  : completion PutCommandOutput * Cloud :=
  request [put_Item c] w (fun ts =>
    match find_table (put_TableName c) ts with
    | None => Throw ResourceNotFound
    | Some (t, tb) =>
        match put_Item c !! "ID" with
        | Some (VNum (Int z)) =>
            Return (PutOutput, <[t := <[z := put_Item c]> tb]> ts)
        | _ => Throw MissingKey
        end
    end).

(** SET on the item under the key; an item that does not exist yet starts
    from the key alone. *)
Definition apply_set (values : object) (it : option object)
    (a : string * string) : option object :=
  match it, values !! a.2 with
  | Some it, Some v => if String.eqb a.1 "ID" then None else Some (<[a.1 := v]> it)
  | _, _ => None
  end.

Definition cloud_update (c : UpdateCommand) (w : Cloud)
  : completion UpdateCommandOutput * Cloud :=
  request [update_Key c; ExpressionAttributeValues c] w (fun ts =>
    match find_table (update_TableName c) ts with
    | None => Throw ResourceNotFound
    | Some (t, tb) =>
        match key_of (update_Key c) with
        | None => Throw KeyMismatch
        | Some z =>
            match parse_update (UpdateExpression c) with
            | None => Throw InvalidExpression
            | Some actions =>
                let old := tb !! z in
                let start :=
                  match old with
                  | Some it => it
                  | None => update_Key c
                  end in
                match foldl (apply_set (ExpressionAttributeValues c))
                            (Some start) actions with
                | None => Throw InvalidExpression
                | Some it =>
                    Return
                      ({| update_Attributes :=
                            if String.eqb (ReturnValues c) "ALL_NEW" then Some it
                            else if String.eqb (ReturnValues c) "ALL_OLD" then old
                            else None |},
                       <[t := <[z := it]> tb]> ts)
                end
            end
        end
    end).

Definition cloud_get (c : GetCommand) (w : Cloud)
  : completion GetCommandOutput * Cloud :=
  request [get_Key c] w (fun ts =>
    match find_table (get_TableName c) ts with
    | None => Throw ResourceNotFound
    | Some (t, tb) =>
        match key_of (get_Key c) with
        | None => Throw KeyMismatch
        | Some z => Return ({| Item := tb !! z |}, ts)
        end
    end).

(** The attributes of an item named by the projection. *)
Definition project (names : list string) (it : object) : object :=
  filter (fun kv => kv.1 ∈ names) it.

Definition cloud_scan (c : ScanCommand) (w : Cloud)
  : completion ScanCommandOutput * Cloud :=
  request [] w (fun ts =>
    match find_table (scan_TableName c) ts with
    | None => Throw ResourceNotFound
    | Some (t, tb) =>
        Return ({| Items :=
                     List.map (fun kv => project (parse_projection (ProjectionExpression c)) kv.2)
                              (map_to_list tb) |}, ts)
    end).

Definition cloud_delete (c : DeleteCommand) (w : Cloud)
  : completion DeleteCommandOutput * Cloud :=
  request [delete_Key c] w (fun ts =>
    match find_table (delete_TableName c) ts with
    | None => Throw ResourceNotFound
    | Some (t, tb) =>
        match key_of (delete_Key c) with
        | None => Throw KeyMismatch
        | Some z => Return (DeleteOutput, <[t := delete z tb]> ts)
        end
    end).

#[global] Instance cloud_store : DynamoDBDocumentClient Cloud := {
  send_put := cloud_put;
  send_update := cloud_update;
  send_get := cloud_get;
  send_scan := cloud_scan;
  send_delete := cloud_delete
}.

(** The registry answers every query with its recorded response. *)
#[global] Instance cloud_registry : ServiceDiscoveryClient Cloud := {
  discover_instances := fun _ w => (registry w, w)
}.

(** ** A client that replays recorded responses *)

(** The store is eventually consistent and shared with other clients, so
    one request may see responses that no single table state explains (a
    scan that lists a key and a fetch that no longer finds it).  A tape is
    the list of responses the two services give, in order; a request that
    does not match the next recorded response fails. *)
Inductive reply : Type :=
  | DiscoverReply (r : completion DiscoverInstancesOutput)
  | PutReply (r : completion PutCommandOutput)
  | UpdateReply (r : completion UpdateCommandOutput)
  | GetReply (r : completion GetCommandOutput)
  | ScanReply (r : completion ScanCommandOutput)
  | DeleteReply (r : completion DeleteCommandOutput).

Record Tape : Type := { replies : list reply }.

Definition off_tape : exn := Error "no recorded response".

Definition play {R : Type} (pick : reply -> option (completion R)) (t : Tape)
  : completion R * Tape :=
  match replies t with
  | r :: rest =>
      match pick r with
      | Some c => (c, {| replies := rest |})
      | None => (Throw off_tape, t)
      end
  | [] => (Throw off_tape, t)
  end.

#[global] Instance tape_registry : ServiceDiscoveryClient Tape := {
  discover_instances := fun _ =>
    play (fun r => match r with DiscoverReply c => Some c | _ => None end)
}.

#[global] Instance tape_store : DynamoDBDocumentClient Tape := {
  send_put := fun _ =>
    play (fun r => match r with PutReply c => Some c | _ => None end);
  send_update := fun _ =>
    play (fun r => match r with UpdateReply c => Some c | _ => None end);
  send_get := fun _ =>
    play (fun r => match r with GetReply c => Some c | _ => None end);
  send_scan := fun _ =>
    play (fun r => match r with ScanReply c => Some c | _ => None end);
  send_delete := fun _ =>
    play (fun r => match r with DeleteReply c => Some c | _ => None end)
}.

(** ** Vocabulary of the statements *)

(** Integers the document client accepts as numbers. *)
Definition safe (z : Z) : Prop :=
  - MAX_SAFE_INTEGER <= z <= MAX_SAFE_INTEGER.

(** A table whose records carry their own key, as the store guarantees. *)
Definition keyed (tb : gmap Z object) : Prop :=
  forall z it, tb !! z = Some it -> it !! "ID" = Some (VNum (Int z)) /\ safe z.

(** No transport fault from request number [c] on. *)
Definition quiet_from (w : Cloud) (c : nat) : Prop :=
  forall k, (c <= k)%nat -> faults w k = None.

(** The ids for which [getItemDB] answers null without asking the store:
    the test [!id && id !== 0]. *)
Definition missing (id : value) : bool :=
  negb (truthy id) && strict_ne_zero id.

(** What the fetches of the keys [ks] return on table [tb] when they are
    sent as requests number [c], [c + 1], ...: null where the transport
    fails, the response otherwise. *)
Fixpoint fetched (f : nat -> option string) (tb : gmap Z object) (c : nat)
    (ks : list Z) : list (option GetCommandOutput) :=
  match ks with
  | [] => []
  | z :: ks' =>
      match f c with
      | Some _ => None
      | None => Some {| Item := tb !! z |}
      end :: fetched f tb (S c) ks'
  end.

(** The actions the router knows. *)
Definition known_actions : list string :=
  ["allCourses"; "addCourse"; "editCourse"; "removeCourse"].


(** The item [putItemDB] writes for [courseObject], given the decoded
    forms of the two URL fields. *)
Definition written_item (courseObject : object) (coverArt courseUrl : string)
  : object :=
  {[ "ID" := VNum (Number (prop courseObject "id"));
     "CourseName" := prop courseObject "courseName";
     "CoverArt" := VStr coverArt;
     "CourseUrl" := VStr courseUrl;
     "Author" := prop courseObject "courseAuthor" ]}.

(** The expression values [updateItemDB] sends, and the item they make of
    [start] under the SET clause of the source. *)
Definition edit_values (courseObject : object) (coverArt courseUrl : string)
  : object :=
  {[ ":name" := prop courseObject "courseName";
     ":coverart" := VStr coverArt;
     ":url" := VStr courseUrl;
     ":author" := prop courseObject "courseAuthor" ]}.

Definition edited (courseObject : object) (coverArt courseUrl : string)
    (start : object) : object :=
  <[ "Author" := prop courseObject "courseAuthor" ]>
    (<[ "CoverArt" := VStr coverArt ]>
       (<[ "CourseUrl" := VStr courseUrl ]>
          (<[ "CourseName" := prop courseObject "courseName" ]> start))).

(** [keyed], as a test that can be run. *)
Definition keyedb (tb : gmap Z object) : bool :=
  forallb (fun kv =>
             match kv.2 !! "ID" with
             | Some (VNum (Int z)) =>
                 (z =? kv.1) && (- MAX_SAFE_INTEGER <=? z)
                 && (z <=? MAX_SAFE_INTEGER)
             | _ => false
             end) (map_to_list tb).

(** The four attributes an edit sets. *)
Definition edited_attributes : list string :=
  ["CourseName"; "CourseUrl"; "CoverArt"; "Author"].

(** The message of the router for an action it does not know. *)
Definition not_found_message (requestAction : value) : string :=
  "Invalid Request: Action " +:+ ToString requestAction +:+ " "
    +:+ typeof requestAction +:+ " not found".

(** ** Scenarios *)

Definition instance_of (attributes : gmap string string)
  : completion DiscoverInstancesOutput :=
  Return {| Instances := Some [ {| Attributes := Some attributes |} ] |}.

(** The registry of the lab: one instance naming the table [Courses]. *)
Definition lab_registry : completion DiscoverInstancesOutput :=
  instance_of {[ "tablename" := "Courses" ]}.

Definition no_fault : nat -> option string := fun _ => None.

Definition cloud_with (reg : completion DiscoverInstancesOutput)
    (tb : gmap Z object) (f : nat -> option string) : process Cloud :=
  {| world := {| registry := reg; tables := {[ "Courses" := tb ]};
                 clock := 0; faults := f |};
     calls := [];
     arrivals := [] |}.

Definition course (id : Z) (name coverArt url author : string) : object :=
  {[ "ID" := VNum (Int id);
     "CourseName" := VStr name;
     "CoverArt" := VStr coverArt;
     "CourseUrl" := VStr url;
     "Author" := VStr author ]}.

Definition submission (action id name coverArt url author : string) : object :=
  {[ "action" := VStr action;
     "id" := VStr id;
     "courseName" := VStr name;
     "courseCoverArt" := VStr coverArt;
     "courseUrl" := VStr url;
     "courseAuthor" := VStr author ]}.

(** [GET /?action=addCourse&id=1&courseName=Algo&...] of the spec. *)
Definition add_algo : object :=
  submission "addCourse" "1" "Algo" "%2Fimg%2Fa.png" "http%3A%2F%2Fx.test" "Ada".

Definition empty_lab : process Cloud := cloud_with lab_registry ∅ no_fault.

(** A registry without instance, and one whose instance has no table name. *)
Definition lost_lab : process Cloud :=
  cloud_with (Return {| Instances := Some [] |}) ∅ no_fault.

Definition bogus_query : object := {[ "action" := VStr "bogus" ]}.

(** [GET /?action=removeCourse&id=999]. *)
Definition remove_999 : object :=
  {[ "action" := VStr "removeCourse"; "id" := VStr "999" ]}.

(** The double quote, to write the expected JSON texts. *)
Definition dq : string := String (byte 34) EmptyString.

(** A catalogue of one course, and an edit whose URL is a lone percent sign. *)
Definition algo_lab : process Cloud :=
  cloud_with lab_registry
    {[ 1 := course 1 "Algo" "/img/a.png" "http://x.test" "Ada" ]} no_fault.
Definition edit_malformed : object :=
  submission "editCourse" "1" "Graphs" "/img/g.png" "%" "Bea".
Definition edit_graphs : object :=
  submission "editCourse" "1" "Graphs" "%2Fimg%2Fg.png" "http%3A%2F%2Fy.test" "Bea".

(** Three courses; the transport fails on the third request (the second
    fetch of a listing: the scan is request 0). *)
Definition three_courses : gmap Z object :=
  {[ 1 := course 1 "Algo" "/img/a.png" "http://x.test" "Ada";
     2 := course 2 "Graphs" "/img/g.png" "http://y.test" "Bea";
     3 := course 3 "Logic" "/img/l.png" "http://z.test" "Cyd" ]}.
Definition one_timeout : nat -> option string :=
  fun k => if (k =? 2)%nat then Some "socket hang up" else None.
Definition flaky_lab : process Cloud :=
  cloud_with lab_registry three_courses one_timeout.
Definition list_query : object := {[ "action" := VStr "allCourses" ]}.

(** A recorded listing: the scan lists key 7, the fetch of 7 finds nothing. *)
Definition stale_listing : process Tape :=
  {| world :=
       {| replies :=
            [ ScanReply (Return {| Items := [ {[ "ID" := VNum (Int 7) ]} ] |});
              GetReply (Return {| Item := None |}) ] |};
     calls := [];
     arrivals := [] |}.


(** ** The gateway *)

(** What [res.send] is given: the router's JSON text, or an object that the
    framework serialises. *)
Inductive sent_body : Type :=
  | SentText (text : string)
  | SentObject (props : list (string * value)).

Record ServerResponse : Type := {
  res_status : Z;
  res_sent : sent_body
}.

Section Gateway.

Context {W : Type}.
Context `{!ServiceDiscoveryClient W} `{!DynamoDBDocumentClient W}.

(** The text of a thrown error in a template literal: its name and its
    message.  The embedding keeps the message of an error only, so the text
    is a parameter. *)
Variable describe : exn -> string.

Local Open Scope async_scope.

(** The handler of [app.all('/')] on a request whose parsed query string is
    [req_query] (the framework always hands an object, empty when the URL
    has no parameters).  Every path of [requestHandler] returns an object,
    so the branch [!resObj] of the source is never taken; [next()] finds no
    further handler. *)
Definition app_all (req_query : object) : async W ServerResponse :=
  try_catch
    (resObj <- requestHandler (Some req_query) ;;
     ret {| res_status := statusCode resObj;
            res_sent := SentText (body resObj) |})
    (fun err =>
       ret {| res_status := 404;
              res_sent := SentObject
                        [("message",
                          VStr ("API server not reachable " +:+ describe err))] |}).

End Gateway.

(** ** Vocabulary of the further statements *)

(** A string without percent sign. *)
Definition plain (s : string) : bool :=
  forallb (fun c => negb (code c =? 37)) (list_ascii_of_string s).

(** The Get calls of a listing over the scanned [items]: one for every item
    whose [ID] is not missing, in the order of the scan. *)
Definition fetch_calls (tableName : value) (items : list object) : list call :=
  omap (fun item =>
          if missing (prop item "ID") then None
          else Some (Get {| get_TableName := tableName;
                            get_Key := {[ "ID" := VNum (Number (prop item "ID")) ]} |}))
       items.

(** The shape the guarded adapters share: the outcome of the one call they
    send, as the response or as the error object. *)
Definition settle {R : Type} (c : completion R) : completion (dbresult R) :=
  match c with
  | Return r => Return (Fulfilled r)
  | Throw e => Return (ErrorObject (message e))
  end.

(** The commands the adapters send. *)
Definition scan_command (tableName : value) : ScanCommand :=
  {| scan_TableName := tableName; ProjectionExpression := "ID" |}.

Definition delete_command (id tableName : value) : DeleteCommand :=
  {| delete_TableName := tableName;
     delete_Key := {[ "ID" := VNum (Number id) ]} |}.

Definition put_command (courseObject : object) (tableName : value)
    (coverArt courseUrl : string) : PutCommand :=
  {| put_TableName := tableName;
     put_Item := written_item courseObject coverArt courseUrl |}.

Definition update_command (courseObject : object) (tableName : value)
    (coverArt courseUrl : string) : UpdateCommand :=
  {| update_TableName := tableName;
     update_Key := {[ "ID" := VNum (Number (prop courseObject "id")) ]};
     UpdateExpression :=
       "SET CourseName = :name, CourseUrl = :url, CoverArt = :coverart, Author = :author";
     ExpressionAttributeValues := edit_values courseObject coverArt courseUrl;
     ReturnValues := "ALL_NEW" |}.

(** From [p] to [p'] only store calls were sent. *)
Definition store_calls_only {W : Type} (p p' : process W) : Prop :=
  exists l, calls p' = calls p ++ l /\ Forall (fun c => is_store_call c = true) l.


(** The attributes of a course record. *)
Definition course_attributes : gset string :=
  {[ "ID"; "CourseName"; "CoverArt"; "CourseUrl"; "Author" ]}.





(** ** Further scenarios *)

(** An add whose cover art holds a percent sign that is no escape. *)
Definition add_discount : object :=
  submission "addCourse" "5" "Sales" "100%" "http://s.test" "Dee".

(** An edit of a course that is not in the catalogue. *)
Definition edit_unknown : object :=
  submission "editCourse" "9" "Sets" "/img/s.png" "http://s.test" "Eve".

Definition remove_1 : object :=
  {[ "action" := VStr "removeCourse"; "id" := VStr "1" ]}.

(** An add that replaces the course of [algo_lab]. *)
Definition add_graphs_as_1 : object :=
  submission "addCourse" "1" "Graphs" "/img/g.png" "http://y.test" "Bea".


Definition tape (rs : list reply) : process Tape :=
  {| world := {| replies := rs |}; calls := []; arrivals := [] |}.

Definition discovery_down : process Tape :=
  tape [DiscoverReply (Throw (Error "getaddrinfo ENOTFOUND"))].

(** A recorded listing of three items, the second without [ID]. *)
Definition listing_with_gap : process Tape :=
  tape [ScanReply (Return {| Items := [ {[ "ID" := VNum (Int 1) ]};
                                        ∅;
                                        {[ "ID" := VNum (Int 0) ]} ] |});
        GetReply (Return {| Item := None |});
        GetReply (Throw (Error "socket hang up"))].

(** The text of an error as JavaScript prints a plain [Error]. *)
Definition describe_Error (e : exn) : string := "Error: " +:+ message e.

(** * Verification *)

(** ** The built-ins and the scenarios of the spec, run *)

Example decode_cover :
  decodeURIComponent (VStr "%2Fimg%2Fa.png") = Return "/img/a.png".
Proof. reflexivity. Qed.

Example decode_url :
  decodeURIComponent (VStr "http%3A%2F%2Fx.test") = Return "http://x.test".
Proof. reflexivity. Qed.

Example decode_twice_encoded :
  decodeURIComponent (VStr "%2541") = Return "%41".
Proof. reflexivity. Qed.

Example decode_malformed :
  decodeURIComponent (VStr "%") = Throw URIError
  /\ decodeURIComponent (VStr "100%") = Throw URIError
  /\ decodeURIComponent (VStr "%zz") = Throw URIError
  /\ decodeURIComponent (VStr "%C0%80") = Throw URIError
  /\ decodeURIComponent (VStr "%E2%82") = Throw URIError.
Proof. repeat split. Qed.

Example decode_absent : decodeURIComponent VUndefined = Return "undefined".
Proof. reflexivity. Qed.

Example Number_examples :
  Number (VStr "1") = Int 1
  /\ Number (VStr " 42 ") = Int 42
  /\ Number (VStr "-7") = Int (-7)
  /\ Number (VStr EmptyString) = Int 0
  /\ Number (VStr "abc") = NaN
  /\ Number VUndefined = NaN
  /\ Number VNull = Int 0
  /\ Number (VArr [VStr "1"; VStr "2"]) = NaN.
Proof. repeat split. Qed.

Example stringify_success :
  JSON_stringify [("success", VBool true); ("action", VStr "addCourse")]
  = "{" +:+ dq +:+ "success" +:+ dq +:+ ":true," +:+ dq +:+ "action" +:+ dq
    +:+ ":" +:+ dq +:+ "addCourse" +:+ dq +:+ "}".
Proof. reflexivity. Qed.

Example stringify_undefined_entry :
  JSON_stringify [("allCourses", VArr [VUndefined; VNum (Int 3)])]
  = "{" +:+ dq +:+ "allCourses" +:+ dq +:+ ":[null,3]}".
Proof. reflexivity. Qed.

(** Adding the course of the spec, then listing. *)
Example add_then_list :
  (requestHandler (Some add_algo) empty_lab).1
  = Return (succeeded (VStr "addCourse"))
  /\ (requestHandler (Some list_query)
        (requestHandler (Some add_algo) empty_lab).2).1
     = Return {| statusCode := 200;
                 body := JSON_stringify
                           [("success", VBool true);
                            ("action", VStr "allCourses");
                            ("allCourses",
                             VArr [ObjectOf (course 1 "Algo" "/img/a.png"
                                               "http://x.test" "Ada")])] |}.
Proof. split; reflexivity. Qed.

(** Removing an id that never existed is answered 200. *)
Example remove_unknown_id :
  (requestHandler (Some remove_999) empty_lab).1
  = Return (succeeded (VStr "removeCourse")).
Proof. reflexivity. Qed.

(** ** Arrival orders *)

(** Every order of the pending fetches is the result of some picks. *)
Lemma arrive_complete {A : Type} (pending arrived : list A) :
  pending ≡ₚ arrived -> exists picks, arrive picks pending = arrived.
Proof.
  revert pending. induction arrived as [|x arrived IH]; intros pending Hp.
  - apply Permutation_nil_r in Hp as ->. by exists [].
  - assert (Hx : x ∈ pending) by (rewrite Hp; left).
    apply list_elem_of_lookup_1 in Hx as [j Hj].
    pose proof (delete_Permutation pending j x Hj) as Hd.
    destruct (IH (delete j pending)) as [picks Hpicks].
    { apply (Permutation_cons_inv (a := x)). by rewrite <- Hd. }
    exists (j :: picks). simpl.
    rewrite Nat.mod_small by (by eapply lookup_lt_Some).
    by rewrite Hj, Hpicks.
Qed.

(** ** The router and the adapters, against any pair of clients *)

Section Router.

Context {W : Type}.
Context `{!ServiceDiscoveryClient W} `{!DynamoDBDocumentClient W}.

Lemma strict_eq_str_ne (v : value) (s : string) :
  v <> VStr s -> strict_eq_str v s = false.
Proof.
  destruct v; simpl; try reflexivity.
  intros Hne. apply String.eqb_neq. congruence.
Qed.

(** An absent query is answered at once. *)
Lemma requestHandler_absent (p : process W) :
  requestHandler None p
  = (Return (failure 400 "Invalid Request: Action not provided"), p).
Proof. reflexivity. Qed.







(** C7, amended: once the table name is resolved to a truthy value, a
    query object whose action is none of the four known ones (a string
    such as bogus, the empty string, an absent action, an array) is
    answered 400 with success false and the message naming the action and
    its runtime type; no store operation is made.  For bogus the message
    is exactly the one of the spec. *)
Theorem unknown_action_400 (query : object) (p p1 : process W) tableName :
  getTableName p = (Return tableName, p1) ->
  truthy tableName = true ->
  (forall s, s ∈ known_actions -> prop query "action" <> VStr s) ->
  requestHandler (Some query) p
  = (Return {| statusCode := 400;
               body := JSON_stringify
                         [("success", VBool false);
                          ("error", VStr (not_found_message (prop query "action")))] |},
     p1)
  /\ not_found_message (VStr "bogus")
     = "Invalid Request: Action bogus string not found"
  /\ not_found_message VUndefined
     = "Invalid Request: Action undefined undefined not found"
  /\ not_found_message (VStr EmptyString)
     = "Invalid Request: Action  string not found".
Proof.
  intros Hn Ht Hunknown. split; [| repeat split].
  unfold requestHandler, bind at 1. rewrite Hn, Ht. simpl negb. cbv iota.
  rewrite !strict_eq_str_ne by (apply Hunknown; unfold known_actions; set_solver).
  reflexivity.
Qed.

(** C8: [getItemDB] returns null at once, without a store call, when the
    id is undefined (or absent), null or the empty string; for the number
    0 it sends the Get command. *)
Theorem getItemDB_missing_id (tableName : value) (p : process W) :
  getItemDB VUndefined tableName p = (Return None, p)
  /\ getItemDB VNull tableName p = (Return None, p)
  /\ getItemDB (VStr EmptyString) tableName p = (Return None, p)
  /\ calls (getItemDB (VNum (Int 0)) tableName p).2
     = calls p ++ [Get {| get_TableName := tableName;
                          get_Key := {[ "ID" := VNum (Int 0) ]} |}].
Proof.
  repeat split.
  unfold getItemDB; simpl. unfold try_catch, bind, send; simpl.
  destruct (send_get _ _) as [[r|e] w]; reflexivity.
Qed.

End Router.

(** C7 as stated fails: with no instance registered the router answers 500
    to the unknown action bogus, not 400. *)
Lemma bogus_without_table_500 :
  (requestHandler (Some bogus_query) lost_lab).1
  = Return (failure 500 "Internal Server Error: Could not find the Database")
  /\ (requestHandler (Some bogus_query) lost_lab).1
     <> Return (failure 400 (not_found_message (VStr "bogus"))).
Proof. split; [reflexivity | discriminate]. Qed.

(** C4 at the empty query object (a request without query parameters): the
    router resolves the table and answers with the unknown-action message
    for undefined, not with "Action not provided". *)
Theorem empty_query_resolves_table :
  requestHandler (Some ∅) empty_lab
  = (Return (failure 400 "Invalid Request: Action undefined undefined not found"),
     after empty_lab (world empty_lab) (Discover findDbNameCommand))
  /\ (requestHandler (Some ∅) empty_lab).1
     <> Return (failure 400 "Invalid Request: Action not provided").
Proof. split; [reflexivity | discriminate]. Qed.


(** ** Concurrent fetches *)

Lemma arrive_Permutation {A : Type} (picks : list nat) (pending : list A) :
  arrive picks pending ≡ₚ pending.
Proof.
  revert pending. induction picks as [|i picks IH]; intros pending; simpl.
  - reflexivity.
  - destruct (pending !! (i mod length pending)%nat) as [x|] eqn:Hx.
    + rewrite IH. symmetry. by apply delete_Permutation.
    + destruct pending as [|y pending]; [reflexivity|].
      apply lookup_ge_None in Hx.
      pose proof (Nat.mod_upper_bound i (length (y :: pending))) as Hlt.
      simpl in *. lia.
Qed.

Lemma foldl_push_course (l : list (option GetCommandOutput)) (acc : list value) :
  foldl push_course acc l = acc ++ (dot_Item <$> omap id l).
Proof.
  revert acc. induction l as [|[r|] l IH]; intros acc; simpl.
  - by rewrite app_nil_r.
  - rewrite IH. by rewrite <- app_assoc.
  - apply IH.
Qed.

(** The list built by a listing: one entry per fetch that did not return
    null, in some order. *)
Lemma coursesList_Permutation (picks : list nat)
    (courses : list (option GetCommandOutput)) :
  foldl push_course [] (arrive picks courses) ≡ₚ dot_Item <$> omap id courses.
Proof.
  rewrite foldl_push_course. simpl.
  apply fmap_Permutation, omap_Permutation, arrive_Permutation.
Qed.

Section Listing.

Context {W : Type}.
Context `{!ServiceDiscoveryClient W} `{!DynamoDBDocumentClient W}.


Lemma getItemDB_sent (id tableName : value) (p : process W) :
  missing id = false ->
  getItemDB id tableName p
  = let command := {| get_TableName := tableName;
                      get_Key := {[ "ID" := VNum (Number id) ]} |} in
    (match (send_get command (world p)).1 with
     | Return response => Return (Some response)
     | Throw _ => Return None
     end,
     after p (send_get command (world p)).2 (Get command)).
Proof.
  unfold missing. intros Hm. unfold getItemDB. rewrite Hm.
  unfold try_catch, bind, send, ret.
  destruct (send_get _ _) as [[r|e] w]; reflexivity.
Qed.

(** A fetch never throws. *)
Lemma getItemDB_returns (id tableName : value) (p : process W) :
  exists course p', getItemDB id tableName p = (Return course, p').
Proof.
  destruct (missing id) eqn:Hm.
  - unfold getItemDB. unfold missing in Hm. rewrite Hm. by eexists _, _.
  - rewrite getItemDB_sent by done. cbv zeta.
    destruct (send_get _ _).1; by eexists _, _.
Qed.

Lemma fetches_return (tableName : value) (items : list object) (p : process W) :
  exists courses p',
    mapM (fun item => getItemDB (prop item "ID") tableName) items p
    = (Return courses, p')
    /\ length courses = length items.
Proof.
  revert p. induction items as [|item items IH]; intros p; simpl.
  - by eexists _, _.
  - destruct (getItemDB_returns (prop item "ID") tableName p) as (c & p1 & Hc).
    destruct (IH p1) as (cs & p2 & Hcs & Hlen).
    exists (c :: cs), p2. unfold bind at 1. rewrite Hc.
    unfold bind at 1. rewrite Hcs. simpl. by rewrite Hlen.
Qed.

Lemma getAllItemsDB_listing (tableName : value) (p p2 : process W) out w courses :
  send_scan {| scan_TableName := tableName; ProjectionExpression := "ID" |}
            (world p) = (Return out, w) ->
  mapM (fun item => getItemDB (prop item "ID") tableName) (Items out)
       (after p w (Scan {| scan_TableName := tableName;
                           ProjectionExpression := "ID" |}))
  = (Return courses, p2) ->
  getAllItemsDB tableName p
  = (Return (Fulfilled (foldl push_course [] (arrive (arrivals p2) courses))), p2).
Proof.
  intros Hscan Hfetch. unfold getAllItemsDB, try_catch.
  unfold bind at 1. unfold send at 1. rewrite Hscan.
  unfold bind at 1. rewrite Hfetch. reflexivity.
Qed.

(** C10: a fetch whose store call succeeds returns the response object
    even when it carries no [Item], and the listing holds one entry for
    every fetch that did not return null: the entry of a response without
    [Item] is undefined.  Only null fetches are dropped. *)
Theorem absent_record_listed_as_undefined (tableName : value)
    (p p2 : process W) out w courses :
  send_scan {| scan_TableName := tableName; ProjectionExpression := "ID" |}
            (world p) = (Return out, w) ->
  mapM (fun item => getItemDB (prop item "ID") tableName) (Items out)
       (after p w (Scan {| scan_TableName := tableName;
                           ProjectionExpression := "ID" |}))
  = (Return courses, p2) ->
  (forall id q w',
      missing id = false ->
      send_get {| get_TableName := tableName;
                  get_Key := {[ "ID" := VNum (Number id) ]} |} (world q)
      = (Return {| Item := None |}, w') ->
      (getItemDB id tableName q).1 = Return (Some {| Item := None |}))
  /\ exists coursesList,
      getAllItemsDB tableName p = (Return (Fulfilled coursesList), p2)
      /\ coursesList ≡ₚ dot_Item <$> omap id courses
      /\ (forall i, courses !! i = Some (Some {| Item := None |}) ->
                    VUndefined ∈ coursesList).
Proof.
  intros Hscan Hfetch. split.
  - intros id q w' Hm Hget. rewrite getItemDB_sent by done.
    cbv zeta. by rewrite Hget.
  - eexists. split; [by eapply getAllItemsDB_listing|].
    split; [apply coursesList_Permutation|].
    intros i Hi. rewrite coursesList_Permutation.
    apply (list_elem_of_fmap_2 dot_Item _ {| Item := None |}).
    apply list_elem_of_omap. exists (Some {| Item := None |}).
    split; [|done]. by eapply list_elem_of_lookup_2.
Qed.

End Listing.

Lemma absent_record_listed_witness :
  exists coursesList p2,
    getAllItemsDB (VStr "Courses") stale_listing = (Return (Fulfilled coursesList), p2)
    /\ coursesList = [VUndefined].
Proof.
  edestruct (absent_record_listed_as_undefined (VStr "Courses") stale_listing)
    as [_ (l & Hl & _ & _)]; [reflexivity | reflexivity |].
  exists l, (getAllItemsDB (VStr "Courses") stale_listing).2.
  split; [exact Hl|].
  vm_compute in Hl. congruence.
Defined.


(** ** The reference store *)

Lemma convertToAttr_obj (kvs : list (string * value)) :
  convertToAttr (VObj kvs) = None
  <-> Forall (fun kv => convertToAttr kv.2 = None) kvs.
Proof.
  induction kvs as [|[k v] kvs IH]; simpl.
  - split; [constructor | done].
  - destruct (convertToAttr v) eqn:Hv.
    + split; [done | inversion 1; simplify_eq/=].
    + simpl in IH. rewrite IH. split; [by constructor | by inversion 1].
Qed.

Lemma marshall_None (o : object) :
  marshall o = None <-> forall k v, o !! k = Some v -> convertToAttr v = None.
Proof.
  unfold marshall, ObjectOf. rewrite convertToAttr_obj, Forall_forall. split.
  - intros Hall k v Hkv. apply (Hall (k, v)). by apply elem_of_map_to_list.
  - intros Hall [k v] Hin. apply (Hall k v). by apply elem_of_map_to_list.
Qed.

Lemma convertToAttr_int (z : Z) : convertToAttr (VNum (Int z)) = None <-> safe z.
Proof.
  unfold safe; simpl.
  destruct (z <=? MAX_SAFE_INTEGER) eqn:H1;
    destruct (- MAX_SAFE_INTEGER <=? z) eqn:H2; simpl; split; try done; lia.
Qed.

Lemma marshall_key (z : Z) : safe z -> marshall {[ "ID" := VNum (Int z) ]} = None.
Proof.
  intros Hz. apply marshall_None. intros k v Hkv.
  apply lookup_singleton_Some in Hkv as [_ <-]. by apply convertToAttr_int.
Qed.

Lemma key_of_singleton (z : Z) : key_of {[ "ID" := VNum (Int z) ]} = Some z.
Proof. unfold key_of. by rewrite lookup_singleton_eq, map_size_singleton. Qed.

Lemma request_marshalled {R : Type} (inputs : list object) (w : Cloud)
    (serve : gmap string (gmap Z object) ->
             completion (R * gmap string (gmap Z object))) :
  Forall (fun o => marshall o = None) inputs ->
  request inputs w serve
  = match faults w (clock w) with
    | Some msg => (Throw (Error msg), sent w (tables w))
    | None =>
        match serve (tables w) with
        | Return (r, ts) => (Return r, sent w ts)
        | Throw e => (Throw e, sent w (tables w))
        end
    end.
Proof.
  intros Hall. unfold request.
  replace (omap marshall inputs) with (@nil exn); [done|].
  induction Hall as [|o os Ho _ IH]; simpl; [done|]. by rewrite Ho.
Qed.

Lemma cloud_get_key (z : Z) (name : value) (w : Cloud) t tb :
  safe z ->
  find_table name (tables w) = Some (t, tb) ->
  cloud_get {| get_TableName := name; get_Key := {[ "ID" := VNum (Int z) ]} |} w
  = (match faults w (clock w) with
     | Some msg => Throw (Error msg)
     | None => Return {| Item := tb !! z |}
     end, sent w (tables w)).
Proof.
  intros Hz Ht. unfold cloud_get.
  rewrite request_marshalled by (repeat constructor; by apply marshall_key).
  cbn [get_TableName get_Key]. rewrite Ht, key_of_singleton.
  by destruct (faults w (clock w)).
Qed.

Lemma missing_int (z : Z) : missing (VNum (Int z)) = false.
Proof. by destruct z. Qed.

Lemma getItemDB_cloud (z : Z) (name : value) (p : process Cloud) t tb :
  safe z ->
  find_table name (tables (world p)) = Some (t, tb) ->
  getItemDB (VNum (Int z)) name p
  = (Return (match faults (world p) (clock (world p)) with
             | Some _ => None
             | None => Some {| Item := tb !! z |}
             end),
     after p (sent (world p) (tables (world p)))
           (Get {| get_TableName := name;
                   get_Key := {[ "ID" := VNum (Int z) ]} |})).
Proof.
  intros Hz Ht. rewrite getItemDB_sent by apply missing_int.
  cbv zeta. cbn [Number send_get cloud_store].
  rewrite (cloud_get_key z name (world p) t tb Hz Ht).
  by destruct (faults (world p) (clock (world p))).
Qed.

(** The fetches of a listing on the reference store. *)
Lemma fetches_cloud (name : value) t tb (items : list object) (ks : list Z) :
  Forall2 (fun item z => prop item "ID" = VNum (Int z) /\ safe z) items ks ->
  forall p : process Cloud,
    find_table name (tables (world p)) = Some (t, tb) ->
    exists p',
      mapM (fun item => getItemDB (prop item "ID") name) items p
      = (Return (fetched (faults (world p)) tb (clock (world p)) ks), p')
      /\ arrivals p' = arrivals p.
Proof.
  induction 1 as [|item z items ks [Hid Hz] _ IH]; intros p Ht; simpl.
  - by eexists.
  - unfold bind at 1. rewrite Hid, (getItemDB_cloud z name p t tb Hz Ht).
    edestruct IH as (p' & Hrest & Harr); [|unfold bind at 1; rewrite Hrest].
    + exact Ht.
    + eexists. split; [reflexivity | exact Harr].
Qed.

Lemma fetched_cons (f : nat -> option string) tb (z : Z) (ks : list Z) (c : nat) :
  length (omap id (fetched f tb c (z :: ks)))
  = (match f c with Some _ => 0 | None => 1 end + length (omap id (fetched f tb (S c) ks)))%nat.
Proof. simpl. by destruct (f c). Qed.

Lemma fetched_quiet (f : nat -> option string) tb (ks : list Z) (c : nat) :
  (forall i, (i < length ks)%nat -> f (c + i)%nat = None) ->
  length (omap id (fetched f tb c ks)) = length ks.
Proof.
  revert c. induction ks as [|z ks IH]; intros c Hq; [done|].
  rewrite fetched_cons, IH.
  - specialize (Hq 0%nat). rewrite Nat.add_0_r in Hq.
    rewrite Hq by (simpl; lia). done.
  - intros i Hi.
    replace (S c + i)%nat with (c + S i)%nat by lia. apply Hq. simpl; lia.
Qed.

(** Exactly one failed fetch among the [N] leaves [N - 1] responses. *)
Lemma fetched_one_fault (f : nat -> option string) tb (ks : list Z) (c j : nat) :
  (j < length ks)%nat ->
  f (c + j)%nat <> None ->
  (forall i, (i < length ks)%nat -> i <> j -> f (c + i)%nat = None) ->
  length (omap id (fetched f tb c ks)) = (length ks - 1)%nat.
Proof.
  revert c j. induction ks as [|z ks IH]; intros c j Hj Hf Hq; [simpl in Hj; lia|].
  rewrite fetched_cons. simpl length in *. destruct j as [|j].
  - rewrite Nat.add_0_r in Hf. destruct (f c); [|done].
    rewrite fetched_quiet; [lia|]. intros i Hi.
    replace (S c + i)%nat with (c + S i)%nat by lia. apply Hq; lia.
  - pose proof (Hq 0%nat) as H0. rewrite Nat.add_0_r in H0.
    rewrite H0 by lia.
    rewrite (IH (S c) j); [lia | lia | |].
    + by replace (S c + j)%nat with (c + S j)%nat by lia.
    + intros i Hi Hne.
      replace (S c + i)%nat with (c + S i)%nat by lia. apply Hq; lia.
Qed.

(** Every response among the fetches is the fetch of one of the keys. *)
Lemma fetched_elem (f : nat -> option string) tb (ks : list Z) (c : nat) course :
  course ∈ omap id (fetched f tb c ks) ->
  exists z, z ∈ ks /\ course = {| Item := tb !! z |}.
Proof.
  revert c. induction ks as [|z ks IH]; intros c Hin; simpl in Hin.
  - by apply elem_of_nil in Hin.
  - destruct (f c); simpl in Hin.
    + destruct (IH _ Hin) as (z' & Hz' & ->). exists z'. split; [by right | done].
    + apply elem_of_cons in Hin as [-> | Hin].
      * exists z. split; [by left | done].
      * destruct (IH _ Hin) as (z' & Hz' & ->). exists z'. split; [by right | done].
Qed.

Lemma prop_project (names : list string) (it : object) (k : string) :
  k ∈ names -> prop (project names it) k = prop it k.
Proof.
  intros Hk. unfold prop, project.
  destruct (it !! k) as [v|] eqn:Hv.
  - by rewrite (proj2 (map_lookup_filter_Some _ it k v) (conj Hv Hk)).
  - by rewrite (proj2 (map_lookup_filter_None _ it k) (or_introl Hv)).
Qed.

Lemma cloud_scan_ids (name : value) (w : Cloud) t tb :
  faults w (clock w) = None ->
  find_table name (tables w) = Some (t, tb) ->
  cloud_scan {| scan_TableName := name; ProjectionExpression := "ID" |} w
  = (Return {| Items := List.map (fun kv => project ["ID"] kv.2) (map_to_list tb) |},
     sent w (tables w)).
Proof.
  intros Hf Ht. unfold cloud_scan.
  rewrite request_marshalled by constructor.
  cbn [scan_TableName ProjectionExpression]. by rewrite Hf, Ht.
Qed.

Lemma scanned_keys (tb : gmap Z object) :
  keyed tb ->
  Forall2 (fun item z => prop item "ID" = VNum (Int z) /\ safe z)
          (List.map (fun kv => project ["ID"] kv.2) (map_to_list tb))
          (map_to_list tb).*1.
Proof.
  intros Hk. apply Forall2_fmap, Forall_Forall2_diag, Forall_forall.
  intros [z it] Hin. apply elem_of_map_to_list in Hin.
  destruct (Hk z it Hin) as [Hid Hz]. split; [|done]. simpl.
  rewrite prop_project by set_solver. unfold prop. by rewrite Hid.
Qed.

Lemma find_table_Some (t : string) tb (ts : gmap string (gmap Z object)) :
  ts !! t = Some tb -> find_table (VStr t) ts = Some (t, tb).
Proof. intros Ht. simpl. by rewrite Ht. Qed.

Lemma truthy_VStr (t : string) : t <> EmptyString -> truthy (VStr t) = true.
Proof. intros Hne. simpl. by apply negb_true_iff, String.eqb_neq. Qed.

(** C2: on a table of [N] records, when the scan succeeds and the store
    call of exactly one of the [N] fetches throws, the listing is a list of
    [N - 1] entries returned as a success, and the router answers 200 with
    that list and nothing else: no sign of the failure. *)
Theorem one_failed_fetch_listed_as_success (query : object)
    (p p0 : process Cloud) (t : string) (tb : gmap Z object) (j : nat) :
  getTableName p = (Return (VStr t), p0) ->
  t <> EmptyString ->
  prop query "action" = VStr "allCourses" ->
  tables (world p0) !! t = Some tb ->
  keyed tb ->
  faults (world p0) (clock (world p0)) = None ->
  (j < size tb)%nat ->
  faults (world p0) (S (clock (world p0)) + j)%nat <> None ->
  (forall i, (i < size tb)%nat -> i <> j ->
             faults (world p0) (S (clock (world p0)) + i)%nat = None) ->
  exists coursesList p',
    getAllItemsDB (VStr t) p0 = (Return (Fulfilled coursesList), p')
    /\ length coursesList = (size tb - 1)%nat
    /\ (forall x, x ∈ coursesList ->
                  exists z it, tb !! z = Some it /\ x = ObjectOf it)
    /\ requestHandler (Some query) p
       = (Return {| statusCode := 200;
                    body := JSON_stringify
                              [("success", VBool true);
                               ("action", VStr "allCourses");
                               ("allCourses", VArr coursesList)] |}, p').
Proof.
  intros Hname Hne Haction Htb Hkeyed Hscan Hj Hfault Hquiet.
  pose proof (find_table_Some t tb _ Htb) as Hfind.
  set (scan := {| scan_TableName := VStr t; ProjectionExpression := "ID" |}).
  destruct (fetches_cloud (VStr t) t tb _ _ (scanned_keys tb Hkeyed)
              (after p0 (sent (world p0) (tables (world p0))) (Scan scan)) Hfind)
    as (p' & Hfetch & Harr).
  pose proof (getAllItemsDB_listing (VStr t) p0 p' _ _ _
                (cloud_scan_ids (VStr t) (world p0) t tb Hscan Hfind) Hfetch)
    as Hlist.
  eexists _, p'. split; [exact Hlist|]. split; [|split].
  - rewrite coursesList_Permutation, length_fmap. cbn [after world sent faults clock].
    rewrite (fetched_one_fault _ _ _ _ j); rewrite ?length_fmap, ?length_map_to_list; try done.
  - intros x Hx. rewrite coursesList_Permutation in Hx.
    apply list_elem_of_fmap_1 in Hx as (course & -> & Hin).
    apply fetched_elem in Hin as (z & Hz & ->).
    apply list_elem_of_fmap_1 in Hz as ([z' it] & -> & Hit).
    apply elem_of_map_to_list in Hit. exists z', it. split; [done|].
    unfold dot_Item. simpl. by rewrite Hit.
  - unfold requestHandler, bind at 1. rewrite Hname, (truthy_VStr t Hne).
    cbn [negb]. rewrite Haction. cbn [strict_eq_str String.eqb Ascii.eqb Bool.eqb].
    unfold bind at 1. rewrite Hlist. reflexivity.
Qed.


Lemma keyedb_keyed (tb : gmap Z object) : keyedb tb = true -> keyed tb.
Proof.
  unfold keyedb, keyed, safe. rewrite forallb_forall.
  intros Hall z it Hit.
  specialize (Hall (z, it)). simpl in Hall.
  destruct (it !! "ID") as [[| | |[|z']| | |]|];
    try (discriminate Hall; apply list_elem_of_In; by apply elem_of_map_to_list).
  assert (Hz : (z' =? z) && (- MAX_SAFE_INTEGER <=? z') && (z' <=? MAX_SAFE_INTEGER) = true)
    by (apply Hall, list_elem_of_In; by apply elem_of_map_to_list).
  apply andb_true_iff in Hz as [Hz H3]. apply andb_true_iff in Hz as [H1 H2].
  apply Z.eqb_eq in H1 as ->. split; [done | lia].
Qed.

Lemma omap_marshall_nil (inputs : list object) :
  omap marshall inputs = [] -> Forall (fun o => marshall o = None) inputs.
Proof.
  induction inputs as [|o os IH]; simpl; [constructor|].
  destruct (marshall o) eqn:Ho; [done|]. intros Hos. constructor; auto.
Qed.

(** A request that returns went through the three stages. *)
Lemma request_Return {R : Type} (inputs : list object) (w w' : Cloud)
    (serve : gmap string (gmap Z object) ->
             completion (R * gmap string (gmap Z object))) (r : R) :
  request inputs w serve = (Return r, w') ->
  Forall (fun o => marshall o = None) inputs
  /\ faults w (clock w) = None
  /\ exists ts, serve (tables w) = Return (r, ts) /\ w' = sent w ts.
Proof.
  unfold request. destruct (omap marshall inputs) eqn:Hm; [|done].
  apply omap_marshall_nil in Hm.
  destruct (faults w (clock w)); [done|].
  destruct (serve (tables w)) as [[r' ts]|e]; [|done].
  intros [= -> <-]. eauto.
Qed.

(** A request changes neither the registry nor the fault oracle, and
    advances the clock by one. *)
Lemma request_frame {R : Type} (inputs : list object) (w : Cloud)
    (serve : gmap string (gmap Z object) ->
             completion (R * gmap string (gmap Z object))) :
  faults (request inputs w serve).2 = faults w
  /\ clock (request inputs w serve).2 = S (clock w).
Proof.
  unfold request. destruct (omap marshall inputs); [|done].
  destruct (faults w (clock w)); [done|].
  by destruct (serve (tables w)) as [[r' ts]|e].
Qed.

Lemma cloud_get_frame (c : GetCommand) (w : Cloud) :
  tables (cloud_get c w).2 = tables w
  /\ faults (cloud_get c w).2 = faults w
  /\ clock (cloud_get c w).2 = S (clock w).
Proof.
  split; [|apply request_frame].
  unfold cloud_get, request. destruct (omap marshall _); [|done].
  destruct (faults w (clock w)); [done|].
  destruct (find_table _ _) as [[t tb]|]; [|done].
  by destruct (key_of _).
Qed.

(** A fetch leaves the tables and the oracle alone. *)
Lemma getItemDB_cloud_frame (id name : value) (p : process Cloud) :
  exists course p',
    getItemDB id name p = (Return course, p')
    /\ tables (world p') = tables (world p)
    /\ faults (world p') = faults (world p)
    /\ (clock (world p) <= clock (world p'))%nat
    /\ arrivals p' = arrivals p.
Proof.
  destruct (missing id) eqn:Hm.
  - unfold getItemDB. unfold missing in Hm. rewrite Hm. by eexists _, _.
  - rewrite getItemDB_sent by done. cbv zeta. cbn [send_get cloud_store].
    set (c := {| get_TableName := name; get_Key := _ |}).
    destruct (cloud_get_frame c (world p)) as (Ht & Hf & Hc).
    destruct (cloud_get c (world p)) as [[r|e] w']; simpl in *;
      eexists _, _; (split; [reflexivity|]); simpl;
      rewrite Ht, Hf, Hc; repeat split; lia.
Qed.

Lemma quiet_from_le (w w' : Cloud) :
  faults w' = faults w -> (clock w <= clock w')%nat ->
  quiet_from w (clock w) -> quiet_from w' (clock w').
Proof. unfold quiet_from. intros -> Hle Hq k Hk. apply Hq. lia. Qed.

(** The fetches of a listing when the transport stays up: every item that
    carries a safe numeric key is fetched from the table. *)
Lemma fetches_cloud_quiet (name : value) t tb (items : list object) :
  forall p : process Cloud,
    find_table name (tables (world p)) = Some (t, tb) ->
    quiet_from (world p) (clock (world p)) ->
    exists courses p',
      mapM (fun item => getItemDB (prop item "ID") name) items p
      = (Return courses, p')
      /\ arrivals p' = arrivals p
      /\ Forall2 (fun item course =>
                    forall z, prop item "ID" = VNum (Int z) -> safe z ->
                              course = Some {| Item := tb !! z |})
                 items courses.
Proof.
  induction items as [|item items IH]; intros p Ht Hq; simpl.
  - eexists _, _. by repeat split.
  - destruct (getItemDB_cloud_frame (prop item "ID") name p)
      as (c & p1 & Hc & Hts & Hfs & Hcl & Harr).
    destruct (IH p1) as (cs & p2 & Hcs & Harr2 & Hall).
    { by rewrite Hts. }
    { by apply (quiet_from_le (world p)). }
    exists (c :: cs), p2. unfold bind at 1. rewrite Hc.
    unfold bind at 1. rewrite Hcs. split; [done|]. split; [congruence|].
    constructor; [|done]. intros z Hid Hz.
    rewrite Hid, (getItemDB_cloud z name p t tb Hz Ht), (Hq (clock (world p))) in Hc by lia.
    congruence.
Qed.

(** A listing on the reference store when the transport stays up: every
    keyed record of the table is in the list. *)
Lemma getAllItemsDB_cloud_quiet (t : string) tb (p : process Cloud) z it :
  tables (world p) !! t = Some tb ->
  quiet_from (world p) (clock (world p)) ->
  tb !! z = Some it ->
  it !! "ID" = Some (VNum (Int z)) ->
  safe z ->
  exists coursesList p',
    getAllItemsDB (VStr t) p = (Return (Fulfilled coursesList), p')
    /\ ObjectOf it ∈ coursesList.
Proof.
  intros Htb Hq Hit Hid Hz.
  pose proof (find_table_Some t tb _ Htb) as Hfind.
  set (scan := {| scan_TableName := VStr t; ProjectionExpression := "ID" |}).
  destruct (fetches_cloud_quiet (VStr t) t tb
              (List.map (fun kv => project ["ID"] kv.2) (map_to_list tb))
              (after p (sent (world p) (tables (world p))) (Scan scan)) Hfind)
    as (courses & p' & Hfetch & Harr & Hall).
  { intros k Hk. apply Hq. simpl in Hk. lia. }
  pose proof (getAllItemsDB_listing (VStr t) p p' _ _ _
                (cloud_scan_ids (VStr t) (world p) t tb
                   (Hq _ (le_n _)) Hfind) Hfetch) as Hlist.
  eexists _, p'. split; [exact Hlist|].
  rewrite coursesList_Permutation.
  apply (list_elem_of_fmap_2 dot_Item _ {| Item := Some it |}).
  apply list_elem_of_omap. exists (Some {| Item := Some it |}). split; [|done].
  pose proof Hit as Hin.
  apply elem_of_map_to_list, list_elem_of_lookup_1 in Hin as [i Hi].
  destruct (Forall2_lookup_l _ _ _ i (project ["ID"] it) Hall)
    as (course & Hcourse & Hspec).
  { change (List.map ?f ?l) with (f <$> l). by rewrite list_lookup_fmap, Hi. }
  rewrite (Hspec z), Hit in Hcourse.
  - by eapply list_elem_of_lookup_2.
  - rewrite prop_project by set_solver. unfold prop. by rewrite Hid.
  - done.
Qed.


(** *** Writing *)

(** What a fulfilled [putItemDB] has done. *)
Lemma putItemDB_fulfilled (courseObject : object) (tableName : value)
    (p p1 : process Cloud) response :
  putItemDB courseObject tableName p = (Return (Fulfilled response), p1) ->
  exists coverArt courseUrl t tb z,
    decodeURIComponent (prop courseObject "courseCoverArt") = Return coverArt
    /\ decodeURIComponent (prop courseObject "courseUrl") = Return courseUrl
    /\ tableName = VStr t
    /\ tables (world p) !! t = Some tb
    /\ Number (prop courseObject "id") = Int z
    /\ safe z
    /\ p1 = after p
              (sent (world p)
                 (<[t := <[z := written_item courseObject coverArt courseUrl]> tb]>
                    (tables (world p))))
              (Put {| put_TableName := tableName;
                      put_Item := written_item courseObject coverArt courseUrl |}).
Proof.
  unfold putItemDB, try_catch. cbv zeta. unfold bind at 1, lift.
  destruct (decodeURIComponent (prop courseObject "courseCoverArt"))
    as [coverArt|e]; [|done].
  unfold bind at 1.
  destruct (decodeURIComponent (prop courseObject "courseUrl"))
    as [courseUrl|e]; [|done].
  fold (written_item courseObject coverArt courseUrl).
  unfold bind at 1, send. cbn [send_put cloud_store].
  destruct (cloud_put _ _) as [[r|e] w] eqn:Hput; [|done].
  intros [= <- <-].
  apply request_Return in Hput as (Hm & _ & ts & Hserve & ->).
  cbn [put_TableName put_Item] in Hserve.
  destruct (find_table tableName (tables (world p))) as [[t tb]|] eqn:Ht; [|done].
  assert (Hid : written_item courseObject coverArt courseUrl !! "ID"
                = Some (VNum (Number (prop courseObject "id"))))
    by apply lookup_insert_eq.
  rewrite Hid in Hserve.
  destruct (Number (prop courseObject "id")) as [|z] eqn:Hz; [done|].
  injection Hserve as Hts. subst ts.
  destruct tableName as [| | | |t'| |]; try done. simpl in Ht.
  destruct (tables (world p) !! t') as [tb'|] eqn:Htb; [|done].
  injection Ht as -> ->.
  assert (Hsafe : safe z).
  { apply Forall_inv in Hm. apply convertToAttr_int.
    by apply (proj1 (marshall_None _) Hm "ID"). }
  exists coverArt, courseUrl, t, tb, z. by repeat (split; [done|]).
Qed.

Lemma parse_SET :
  parse_update "SET CourseName = :name, CourseUrl = :url, CoverArt = :coverart, Author = :author"
  = Some [("CourseName", ":name"); ("CourseUrl", ":url");
          ("CoverArt", ":coverart"); ("Author", ":author")].
Proof. reflexivity. Qed.

Lemma apply_SET (courseObject : object) (coverArt courseUrl : string)
    (start : object) :
  foldl (apply_set (edit_values courseObject coverArt courseUrl)) (Some start)
        [("CourseName", ":name"); ("CourseUrl", ":url");
         ("CoverArt", ":coverart"); ("Author", ":author")]
  = Some (edited courseObject coverArt courseUrl start).
Proof.
  assert (H1 : edit_values courseObject coverArt courseUrl !! ":name"
               = Some (prop courseObject "courseName")) by reflexivity.
  assert (H2 : edit_values courseObject coverArt courseUrl !! ":url"
               = Some (VStr courseUrl)) by reflexivity.
  assert (H3 : edit_values courseObject coverArt courseUrl !! ":coverart"
               = Some (VStr coverArt)) by reflexivity.
  assert (H4 : edit_values courseObject coverArt courseUrl !! ":author"
               = Some (prop courseObject "courseAuthor")) by reflexivity.
  cbn [foldl]. unfold apply_set. cbn [fst snd].
  rewrite H1. cbn [String.eqb Ascii.eqb Bool.eqb].
  rewrite H2. cbn [String.eqb Ascii.eqb Bool.eqb].
  rewrite H3. cbn [String.eqb Ascii.eqb Bool.eqb].
  rewrite H4. reflexivity.
Qed.

Lemma edited_lookup (courseObject : object) (coverArt courseUrl : string)
    (start : object) :
  let new := edited courseObject coverArt courseUrl start in
  new !! "CourseName" = Some (prop courseObject "courseName")
  /\ new !! "CourseUrl" = Some (VStr courseUrl)
  /\ new !! "CoverArt" = Some (VStr coverArt)
  /\ new !! "Author" = Some (prop courseObject "courseAuthor")
  /\ (forall a, a ∉ edited_attributes -> new !! a = start !! a).
Proof.
  cbv zeta. unfold edited. repeat split.
  - by rewrite !lookup_insert_ne, lookup_insert_eq by done.
  - by rewrite !lookup_insert_ne, lookup_insert_eq by done.
  - by rewrite !lookup_insert_ne, lookup_insert_eq by done.
  - by rewrite lookup_insert_eq.
  - intros a Ha. unfold edited_attributes in Ha.
    rewrite !lookup_insert_ne; [done | set_solver..].
Qed.

(** What a fulfilled [updateItemDB] has done. *)
Lemma updateItemDB_fulfilled (courseObject : object) (tableName : value)
    (p p1 : process Cloud) response :
  updateItemDB courseObject tableName p = (Return (Fulfilled response), p1) ->
  exists coverArt courseUrl t tb z,
    decodeURIComponent (prop courseObject "courseCoverArt") = Return coverArt
    /\ decodeURIComponent (prop courseObject "courseUrl") = Return courseUrl
    /\ tableName = VStr t
    /\ tables (world p) !! t = Some tb
    /\ Number (prop courseObject "id") = Int z
    /\ safe z
    /\ let new := edited courseObject coverArt courseUrl
                    (match tb !! z with
                     | Some it => it
                     | None => {[ "ID" := VNum (Int z) ]}
                     end) in
       update_Attributes response = Some new
       /\ world p1 = sent (world p) (<[t := <[z := new]> tb]> (tables (world p)))
       /\ arrivals p1 = arrivals p.
Proof.
  unfold updateItemDB, try_catch. cbv zeta. unfold bind at 1, lift.
  destruct (decodeURIComponent (prop courseObject "courseCoverArt"))
    as [coverArt|e]; [|done].
  unfold bind at 1.
  destruct (decodeURIComponent (prop courseObject "courseUrl"))
    as [courseUrl|e]; [|done].
  fold (edit_values courseObject coverArt courseUrl).
  unfold bind at 1, send. cbn [send_update cloud_store].
  destruct (cloud_update _ _) as [[r|e] w] eqn:Hupd; [|done].
  intros [= <- <-].
  apply request_Return in Hupd as (Hm & _ & ts & Hserve & ->).
  cbn [update_TableName update_Key UpdateExpression ExpressionAttributeValues
       ReturnValues] in Hserve, Hm.
  destruct (find_table tableName (tables (world p))) as [[t tb]|] eqn:Ht; [|done].
  destruct (Number (prop courseObject "id")) as [|z] eqn:Hz.
  { unfold key_of in Hserve. by rewrite lookup_singleton_eq in Hserve. }
  rewrite key_of_singleton, parse_SET, apply_SET in Hserve.
  injection Hserve as Hr Hts. subst r ts.
  destruct tableName as [| | | |t'| |]; try done. simpl in Ht.
  destruct (tables (world p) !! t') as [tb'|] eqn:Htb; [|done].
  injection Ht as -> ->.
  assert (Hsafe : safe z).
  { apply Forall_inv in Hm. apply convertToAttr_int.
    apply (proj1 (marshall_None _) Hm "ID"). apply lookup_singleton_eq. }
  exists coverArt, courseUrl, t, tb, z. by repeat (split; [done|]).
Qed.




(** C1: once [putItemDB] has succeeded on a payload with its five fields
    and a numeric id, a following listing of the same table (the transport
    staying up while it runs) returns a list that contains the record with
    the submitted id as a number, name and author, and the two URL fields
    percent-decoded. *)
Theorem added_course_is_listed (courseObject : object) (tableName : value)
    (p p1 : process Cloud) response
    (id courseName courseCoverArt courseUrl courseAuthor : value) (z : Z) :
  courseObject !! "id" = Some id ->
  courseObject !! "courseName" = Some courseName ->
  courseObject !! "courseCoverArt" = Some courseCoverArt ->
  courseObject !! "courseUrl" = Some courseUrl ->
  courseObject !! "courseAuthor" = Some courseAuthor ->
  Number id = Int z ->
  putItemDB courseObject tableName p = (Return (Fulfilled response), p1) ->
  quiet_from (world p1) (clock (world p1)) ->
  exists coverArt url coursesList p2,
    decodeURIComponent courseCoverArt = Return coverArt
    /\ decodeURIComponent courseUrl = Return url
    /\ getAllItemsDB tableName p1 = (Return (Fulfilled coursesList), p2)
    /\ ObjectOf {[ "ID" := VNum (Int z);
                   "CourseName" := courseName;
                   "CoverArt" := VStr coverArt;
                   "CourseUrl" := VStr url;
                   "Author" := courseAuthor ]} ∈ coursesList.
Proof.
  intros Hid Hname Hcover Hurl Hauthor Hz Hput Hquiet.
  apply putItemDB_fulfilled in Hput
    as (coverArt & url & t & tb & z' & Hc & Hu & -> & Htb & Hz' & Hsafe & ->).
  unfold prop in Hc, Hu, Hz'.
  rewrite Hcover in Hc. rewrite Hurl in Hu. rewrite Hid in Hz'.
  assert (z' = z) as -> by congruence.
  set (item := written_item courseObject coverArt url) in *.
  set (p1 := after p _ _) in *.
  destruct (getAllItemsDB_cloud_quiet t (<[z := item]> tb) p1 z item)
    as (coursesList & p2 & Hlist & Hin); try done.
  - unfold p1. cbn [after world sent tables]. apply lookup_insert_eq.
  - apply lookup_insert_eq.
  - unfold item, written_item, prop. rewrite Hid, Hz. apply lookup_insert_eq.
  - exists coverArt, url, coursesList, p2. repeat split; try done.
    revert Hin. unfold item, written_item, prop.
    by rewrite Hid, Hname, Hauthor, Hz.
Qed.


(** C5, amended: for an id that exists in the table, an [updateItemDB] that
    is fulfilled sets the four attributes [CourseName], [CourseUrl],
    [CoverArt] and [Author] of that record to the submitted values (the two
    URL fields decoded), leaves every other attribute of the record, [ID]
    among them, and every other record as they were, returns the new
    record, and a following fetch of that id returns it. *)
Theorem edit_sets_the_four_fields (courseObject : object) (tableName : value)
    (p p1 : process Cloud) response (t : string) (tb : gmap Z object)
    (z : Z) (old : object) :
  tableName = VStr t ->
  tables (world p) !! t = Some tb ->
  Number (prop courseObject "id") = Int z ->
  tb !! z = Some old ->
  updateItemDB courseObject tableName p = (Return (Fulfilled response), p1) ->
  exists coverArt courseUrl new tb1,
    decodeURIComponent (prop courseObject "courseCoverArt") = Return coverArt
    /\ decodeURIComponent (prop courseObject "courseUrl") = Return courseUrl
    /\ tables (world p1) !! t = Some tb1
    /\ tb1 !! z = Some new
    /\ new !! "CourseName" = Some (prop courseObject "courseName")
    /\ new !! "CourseUrl" = Some (VStr courseUrl)
    /\ new !! "CoverArt" = Some (VStr coverArt)
    /\ new !! "Author" = Some (prop courseObject "courseAuthor")
    /\ (forall a, a ∉ edited_attributes -> new !! a = old !! a)
    /\ new !! "ID" = old !! "ID"
    /\ (forall z', z' <> z -> tb1 !! z' = tb !! z')
    /\ update_Attributes response = Some new
    /\ (faults (world p1) (clock (world p1)) = None ->
        (getItemDB (VNum (Int z)) tableName p1).1
        = Return (Some {| Item := Some new |})).
Proof.
  intros -> Htb Hz Hold Hupd.
  apply updateItemDB_fulfilled in Hupd
    as (coverArt & url & t' & tb' & z' & Hc & Hu & [= <-] & Htb' & Hz' & Hsafe & Hnew).
  assert (tb' = tb) as -> by congruence.
  assert (z' = z) as -> by congruence.
  rewrite Hold in Hnew. cbv zeta in Hnew. destruct Hnew as (Hattr & Hworld & _).
  set (new := edited courseObject coverArt url old) in *.
  destruct (edited_lookup courseObject coverArt url old)
    as (H1 & H2 & H3 & H4 & Hframe).
  assert (Htb1 : tables (world p1) !! t = Some (<[z := new]> tb))
    by (rewrite Hworld; apply lookup_insert_eq).
  exists coverArt, url, new, (<[z := new]> tb).
  repeat (split; [done|]).
  split; [apply lookup_insert_eq|].
  repeat (split; [done|]).
  split; [by apply Hframe, (bool_decide_unpack _)|].
  split; [by intros z' Hne; apply lookup_insert_ne|].
  split; [done|].
  intros Hquiet.
  rewrite (getItemDB_cloud z (VStr t) p1 t (<[z := new]> tb) Hsafe
             (find_table_Some _ _ _ Htb1)).
  cbn [fst]. by rewrite Hquiet, lookup_insert_eq.
Qed.

(** C5 as stated fails: an edit whose URL is a lone percent sign is caught
    as an error, the record keeps its old name, and a following fetch
    returns the old record. *)
Lemma malformed_edit_changes_nothing :
  (updateItemDB edit_malformed (VStr "Courses") algo_lab).1
  = Return (ErrorObject "URI malformed")
  /\ (getItemDB (VNum (Int 1)) (VStr "Courses")
       (updateItemDB edit_malformed (VStr "Courses") algo_lab).2).1
     = Return (Some {| Item := Some (course 1 "Algo" "/img/a.png" "http://x.test" "Ada") |})
  /\ prop edit_malformed "courseName" = VStr "Graphs"
  /\ course 1 "Algo" "/img/a.png" "http://x.test" "Ada" !! "CourseName"
     = Some (VStr "Algo").
Proof. repeat split; vm_compute; reflexivity. Qed.


(** ** The statements at work on the scenarios *)



Lemma unknown_action_400_witness :
  requestHandler (Some bogus_query) empty_lab
  = (Return {| statusCode := 400;
               body := JSON_stringify
                         [("success", VBool false);
                          ("error", VStr "Invalid Request: Action bogus string not found")] |},
     after empty_lab (world empty_lab) (Discover findDbNameCommand)).
Proof.
  apply (unknown_action_400 bogus_query empty_lab
           (after empty_lab (world empty_lab) (Discover findDbNameCommand))
           (VStr "Courses")).
  - reflexivity.
  - reflexivity.
  - intros s Hs Heq. vm_compute in Heq. injection Heq as <-.
    unfold known_actions in Hs.
    repeat (apply elem_of_cons in Hs as [Hs|Hs]; [discriminate Hs|]).
    by apply elem_of_nil in Hs.
Defined.

Lemma added_course_is_listed_witness :
  exists coursesList p2,
    getAllItemsDB (VStr "Courses") (putItemDB add_algo (VStr "Courses") empty_lab).2
    = (Return (Fulfilled coursesList), p2)
    /\ ObjectOf (course 1 "Algo" "/img/a.png" "http://x.test" "Ada") ∈ coursesList.
Proof.
  destruct (added_course_is_listed add_algo (VStr "Courses") empty_lab
              (putItemDB add_algo (VStr "Courses") empty_lab).2 PutOutput
              (VStr "1") (VStr "Algo") (VStr "%2Fimg%2Fa.png")
              (VStr "http%3A%2F%2Fx.test") (VStr "Ada") 1)
    as (coverArt & url & coursesList & p2 & Hc & Hu & Hlist & Hin);
    try reflexivity.
  - intros k _. reflexivity.
  - exists coursesList, p2. split; [exact Hlist|].
    vm_compute in Hc, Hu. injection Hc as <-. injection Hu as <-. exact Hin.
Defined.

Lemma one_failed_fetch_witness :
  exists coursesList p',
    requestHandler (Some list_query) flaky_lab
    = (Return {| statusCode := 200;
                 body := JSON_stringify
                           [("success", VBool true);
                            ("action", VStr "allCourses");
                            ("allCourses", VArr coursesList)] |}, p')
    /\ length coursesList = 2%nat.
Proof.
  destruct (one_failed_fetch_listed_as_success list_query flaky_lab
              (after flaky_lab (world flaky_lab) (Discover findDbNameCommand))
              "Courses" three_courses 1)
    as (coursesList & p' & _ & Hlen & _ & Hresp); try reflexivity.
  - discriminate.
  - apply keyedb_keyed. reflexivity.
  - vm_compute. lia.
  - vm_compute. discriminate.
  - intros i Hi Hne.
    assert (Hsize : size three_courses = 3%nat) by reflexivity.
    rewrite Hsize in Hi.
    destruct i as [|[|[|i]]]; [reflexivity | contradiction | reflexivity | lia].
  - exists coursesList, p'. split; [exact Hresp | exact Hlen].
Defined.


Lemma edit_sets_the_four_fields_witness :
  (getItemDB (VNum (Int 1)) (VStr "Courses")
     (updateItemDB edit_graphs (VStr "Courses") algo_lab).2).1
  = Return (Some {| Item := Some (course 1 "Graphs" "/img/g.png" "http://y.test" "Bea") |}).
Proof.
  destruct (edit_sets_the_four_fields edit_graphs (VStr "Courses") algo_lab
              (updateItemDB edit_graphs (VStr "Courses") algo_lab).2
              {| update_Attributes :=
                   Some (course 1 "Graphs" "/img/g.png" "http://y.test" "Bea") |}
              "Courses"
              {[ 1 := course 1 "Algo" "/img/a.png" "http://x.test" "Ada" ]}
              1 (course 1 "Algo" "/img/a.png" "http://x.test" "Ada"))
    as (coverArt & url & new & tb1 & _ & _ & _ & _ & _ & _ & _ & _ & _ & _ & _
        & Hnew & Hget); [reflexivity.. |].
  injection Hnew as <-. apply Hget. reflexivity.
Defined.


(** * Further properties *)

(** ** Percent-decoding *)

(** The decoder throws nothing but URIError. *)
Lemma Decode_throws (l : list ascii) :
  forall st e, Decode st l = Throw e -> e = URIError.
Proof.
  induction l as [|c l IH]; intros st e; simpl.
  - destruct st; congruence.
  - destruct st; repeat case_match; intros; simplify_eq; eauto.
Qed.

Lemma decodeURIComponent_throws (v : value) (e : exn) :
  decodeURIComponent v = Throw e -> e = URIError.
Proof.
  unfold decodeURIComponent.
  destruct (Decode Plain _) eqn:Hd; [done|].
  intros [= <-]. by eapply Decode_throws.
Qed.

Lemma Decode_plain (l : list ascii) :
  forallb (fun c => negb (code c =? 37)) l = true -> Decode Plain l = Return l.
Proof.
  induction l as [|c l IH]; simpl; [done|].
  intros [Hc Hl]%andb_true_iff. apply negb_true_iff in Hc.
  by rewrite Hc, IH.
Qed.

Lemma decodeURIComponent_plain (s : string) :
  plain s = true -> decodeURIComponent (VStr s) = Return s.
Proof.
  intros Hs. unfold decodeURIComponent. simpl ToString.
  rewrite Decode_plain by done. by rewrite string_of_list_ascii_of_string.
Qed.


(** ** The adapters, against any pair of clients *)

Lemma omap_shorter {A B : Type} (f : A -> option B) (l : list A) :
  (length (omap f l) <= length l)%nat.
Proof.
  induction l as [|x l IH]; simpl; [done|].
  destruct (f x); simpl; [apply le_n_S | apply le_S]; exact IH.
Qed.

Section Adapters.

Context {W : Type}.
Context `{!ServiceDiscoveryClient W} `{!DynamoDBDocumentClient W}.

Lemma putItemDB_sent (courseObject : object) (tableName : value)
    (p : process W) coverArt courseUrl :
  decodeURIComponent (prop courseObject "courseCoverArt") = Return coverArt ->
  decodeURIComponent (prop courseObject "courseUrl") = Return courseUrl ->
  let command := put_command courseObject tableName coverArt courseUrl in
  putItemDB courseObject tableName p
  = (settle (send_put command (world p)).1,
     after p (send_put command (world p)).2 (Put command)).
Proof.
  intros Hc Hu. cbv zeta. unfold putItemDB, try_catch. cbv zeta.
  unfold bind at 1, lift. rewrite Hc. unfold bind at 1. rewrite Hu.
  unfold bind at 1, send. fold (written_item courseObject coverArt courseUrl).
  fold (put_command courseObject tableName coverArt courseUrl).
  by destruct (send_put _ _) as [[r|e] w].
Qed.

Lemma updateItemDB_sent (courseObject : object) (tableName : value)
    (p : process W) coverArt courseUrl :
  decodeURIComponent (prop courseObject "courseCoverArt") = Return coverArt ->
  decodeURIComponent (prop courseObject "courseUrl") = Return courseUrl ->
  let command := update_command courseObject tableName coverArt courseUrl in
  updateItemDB courseObject tableName p
  = (settle (send_update command (world p)).1,
     after p (send_update command (world p)).2 (Update command)).
Proof.
  intros Hc Hu. cbv zeta. unfold updateItemDB, try_catch. cbv zeta.
  unfold bind at 1, lift. rewrite Hc. unfold bind at 1. rewrite Hu.
  unfold bind at 1, send. fold (edit_values courseObject coverArt courseUrl).
  fold (update_command courseObject tableName coverArt courseUrl).
  by destruct (send_update _ _) as [[r|e] w].
Qed.

Lemma deleteItemDB_sent (id tableName : value) (p : process W) :
  let command := delete_command id tableName in
  deleteItemDB id tableName p
  = (settle (send_delete command (world p)).1,
     after p (send_delete command (world p)).2 (Delete command)).
Proof.
  cbv zeta. unfold deleteItemDB, try_catch. cbv zeta.
  unfold bind at 1, send. fold (delete_command id tableName).
  by destruct (send_delete _ _) as [[r|e] w].
Qed.

(** A payload whose URL fields do not decode is turned down before any
    call. *)
Lemma writes_malformed (courseObject : object) (tableName : value)
    (p : process W) :
  (exists e, decodeURIComponent (prop courseObject "courseCoverArt") = Throw e)
  \/ (exists e, decodeURIComponent (prop courseObject "courseUrl") = Throw e) ->
  putItemDB courseObject tableName p
  = (Return (ErrorObject "URI malformed"), p)
  /\ updateItemDB courseObject tableName p
     = (Return (ErrorObject "URI malformed"), p).
Proof.
  intros Hbad. unfold putItemDB, updateItemDB, try_catch. cbv zeta.
  unfold bind at 1 3, lift.
  destruct (decodeURIComponent (prop courseObject "courseCoverArt"))
    as [coverArt|e] eqn:Hc.
  - destruct Hbad as [[e He] | [e He]]; [done|].
    unfold bind at 1 3. rewrite He.
    apply decodeURIComponent_throws in He as ->. done.
  - apply decodeURIComponent_throws in Hc as ->. done.
Qed.

(** The fetches of a listing: they never throw, they send one Get for each
    item whose [ID] is not missing, in order, and nothing else. *)
Lemma fetches_calls (tableName : value) (items : list object) (p : process W) :
  exists courses p',
    mapM (fun item => getItemDB (prop item "ID") tableName) items p
    = (Return courses, p')
    /\ length courses = length items
    /\ calls p' = calls p ++ fetch_calls tableName items
    /\ arrivals p' = arrivals p.
Proof.
  revert p. induction items as [|item items IH]; intros p; simpl.
  - eexists _, _. by rewrite app_nil_r.
  - unfold fetch_calls. simpl. fold (fetch_calls tableName items).
    destruct (missing (prop item "ID")) eqn:Hm.
    + assert (Hnull : getItemDB (prop item "ID") tableName p = (Return None, p)).
      { unfold getItemDB. unfold missing in Hm. by rewrite Hm. }
      destruct (IH p) as (cs & p' & Hcs & Hlen & Hcalls & Harr).
      exists (None :: cs), p'. unfold bind at 1. rewrite Hnull.
      unfold bind at 1. rewrite Hcs. simpl. by rewrite Hlen.
    + pose proof (getItemDB_sent (prop item "ID") tableName p Hm) as Hget.
      cbv zeta in Hget.
      set (command := {| get_TableName := tableName; get_Key := _ |}) in *.
      set (p1 := after p (send_get command (world p)).2 (Get command)) in *.
      destruct (IH p1) as (cs & p' & Hcs & Hlen & Hcalls & Harr).
      unfold bind at 1. rewrite Hget.
      destruct (send_get command (world p)).1 as [r|e];
        unfold bind at 1; rewrite Hcs;
        eexists _, p'; (split; [reflexivity|]);
        simpl; rewrite Hlen, Hcalls, Harr; unfold p1; simpl;
        by rewrite <- app_assoc.
Qed.

Lemma putItemDB_returns (courseObject : object) (tableName : value)
    (p : process W) :
  exists r p', putItemDB courseObject tableName p = (Return r, p')
               /\ store_calls_only p p'.
Proof.
  destruct (decodeURIComponent (prop courseObject "courseCoverArt"))
    as [c|e] eqn:Hc;
    [destruct (decodeURIComponent (prop courseObject "courseUrl"))
       as [u|e] eqn:Hu|].
  - rewrite (putItemDB_sent _ _ _ c u Hc Hu). cbv zeta.
    destruct (send_put _ _).1; eexists _, _; (split; [reflexivity|]);
      eexists [_]; split; try reflexivity; by repeat constructor.
  - eexists _, _. split; [apply writes_malformed; right; by eexists|].
    exists []. by rewrite app_nil_r.
  - eexists _, _. split; [apply writes_malformed; left; by eexists|].
    exists []. by rewrite app_nil_r.
Qed.

Lemma updateItemDB_returns (courseObject : object) (tableName : value)
    (p : process W) :
  exists r p', updateItemDB courseObject tableName p = (Return r, p')
               /\ store_calls_only p p'.
Proof.
  destruct (decodeURIComponent (prop courseObject "courseCoverArt"))
    as [c|e] eqn:Hc;
    [destruct (decodeURIComponent (prop courseObject "courseUrl"))
       as [u|e] eqn:Hu|].
  - rewrite (updateItemDB_sent _ _ _ c u Hc Hu). cbv zeta.
    destruct (send_update _ _).1; eexists _, _; (split; [reflexivity|]);
      eexists [_]; split; try reflexivity; by repeat constructor.
  - eexists _, _. split; [apply writes_malformed; right; by eexists|].
    exists []. by rewrite app_nil_r.
  - eexists _, _. split; [apply writes_malformed; left; by eexists|].
    exists []. by rewrite app_nil_r.
Qed.

Lemma deleteItemDB_returns (id tableName : value) (p : process W) :
  exists r p', deleteItemDB id tableName p = (Return r, p')
               /\ store_calls_only p p'.
Proof.
  rewrite deleteItemDB_sent. cbv zeta.
  destruct (send_delete _ _).1; eexists _, _; (split; [reflexivity|]);
    eexists [_]; split; try reflexivity; by repeat constructor.
Qed.

Lemma fetch_calls_store (tableName : value) (items : list object) :
  Forall (fun c => is_store_call c = true) (fetch_calls tableName items).
Proof.
  apply Forall_forall. intros c Hc. unfold fetch_calls in Hc.
  apply list_elem_of_omap in Hc as (item & _ & Hitem).
  destruct (missing _); by simplify_eq.
Qed.

Lemma getAllItemsDB_returns (tableName : value) (p : process W) :
  exists r p', getAllItemsDB tableName p = (Return r, p')
               /\ store_calls_only p p'.
Proof.
  unfold getAllItemsDB, try_catch. cbv zeta. unfold bind at 1, send.
  destruct (send_scan _ _) as [[out|e] w].
  - destruct (fetches_calls tableName (Items out)
                (after p w (Scan {| scan_TableName := tableName;
                                    ProjectionExpression := "ID" |})))
      as (cs & p' & Hcs & _ & Hcalls & _).
    unfold bind at 1. rewrite Hcs.
    eexists _, _. split; [reflexivity|].
    eexists (_ :: _). split.
    + rewrite Hcalls. simpl. by rewrite <- app_assoc.
    + constructor; [done | apply fetch_calls_store].
  - eexists _, _. split; [reflexivity|].
    eexists [_]. split; [reflexivity | by repeat constructor].
Qed.

(** X1: none of the five adapters ever throws: whatever the decoding or the
    store does, each returns a value (a response, an error object or
    null). *)
Theorem adapters_never_throw (courseObject : object) (id tableName : value)
    (p : process W) :
  (exists r p', putItemDB courseObject tableName p = (Return r, p'))
  /\ (exists r p', updateItemDB courseObject tableName p = (Return r, p'))
  /\ (exists r p', getItemDB id tableName p = (Return r, p'))
  /\ (exists r p', getAllItemsDB tableName p = (Return r, p'))
  /\ (exists r p', deleteItemDB id tableName p = (Return r, p')).
Proof.
  repeat split.
  - destruct (putItemDB_returns courseObject tableName p) as (r & p' & Hr & _).
    by eexists _, _.
  - destruct (updateItemDB_returns courseObject tableName p) as (r & p' & Hr & _).
    by eexists _, _.
  - apply getItemDB_returns.
  - destruct (getAllItemsDB_returns tableName p) as (r & p' & Hr & _).
    by eexists _, _.
  - destruct (deleteItemDB_returns id tableName p) as (r & p' & Hr & _).
    by eexists _, _.
Qed.

(** X2: a payload one of whose URL fields is not a well-formed
    percent-encoding is turned down by [putItemDB] and by [updateItemDB]
    with the error object of URIError, before any call: the process is
    left as it was. *)
Theorem malformed_payload_is_never_sent (courseObject : object)
    (tableName : value) (p : process W) :
  (exists e, decodeURIComponent (prop courseObject "courseCoverArt") = Throw e)
  \/ (exists e, decodeURIComponent (prop courseObject "courseUrl") = Throw e) ->
  putItemDB courseObject tableName p
  = (Return (ErrorObject "URI malformed"), p)
  /\ updateItemDB courseObject tableName p
     = (Return (ErrorObject "URI malformed"), p).
Proof. apply writes_malformed. Qed.

(** X3: a listing sends one Scan and then one Get for every scanned item
    whose [ID] is not missing, in the order of the scan, and nothing else;
    when the Scan throws, no Get is sent and the error message is
    returned. *)
Theorem listing_is_scan_then_fetches (tableName : value) (p : process W) :
  (forall out w,
      send_scan (scan_command tableName) (world p) = (Return out, w) ->
      exists coursesList p',
        getAllItemsDB tableName p = (Return (Fulfilled coursesList), p')
        /\ calls p' = calls p ++ Scan (scan_command tableName)
                                 :: fetch_calls tableName (Items out)
        /\ (length coursesList <= length (Items out))%nat)
  /\ (forall e w,
      send_scan (scan_command tableName) (world p) = (Throw e, w) ->
      getAllItemsDB tableName p
      = (Return (ErrorObject (message e)),
         after p w (Scan (scan_command tableName)))).
Proof.
  split.
  - intros out w Hscan.
    destruct (fetches_calls tableName (Items out)
                (after p w (Scan (scan_command tableName))))
      as (cs & p' & Hcs & Hlen & Hcalls & Harr).
    pose proof (getAllItemsDB_listing tableName p p' out w cs Hscan Hcs) as Hl.
    eexists _, p'. split; [exact Hl|]. split.
    + rewrite Hcalls. simpl. by rewrite <- app_assoc.
    + rewrite coursesList_Permutation, length_fmap, <- Hlen.
      apply omap_shorter.
  - intros e w Hscan. unfold getAllItemsDB, try_catch. cbv zeta.
    unfold bind at 1, send. fold (scan_command tableName). by rewrite Hscan.
Qed.

End Adapters.


(** ** The router and the gateway, against any pair of clients *)

Section Dispatch.

Context {W : Type}.
Context `{!ServiceDiscoveryClient W} `{!DynamoDBDocumentClient W}.

(** Table resolution sends the discovery call and nothing else, whether it
    returns or throws. *)
Lemma getTableName_call (p : process W) :
  exists c w, getTableName p = (c, after p w (Discover findDbNameCommand)).
Proof.
  unfold getTableName, bind, cloudMapClient_send, send.
  destruct (discover_instances _ _) as [[out|e] w]; [|by eexists _, _].
  destruct (Instances out) as [[|instance rest]|]; try by eexists _, _.
  destruct (Attributes instance); by eexists _, _.
Qed.

(** Past the two guards, the router is its switch. *)
Lemma requestHandler_resolved (query : object) (p p1 : process W) tableName :
  getTableName p = (Return tableName, p1) ->
  truthy tableName = true ->
  forall action, prop query "action" = VStr action ->
  requestHandler (Some query) p
  = (if String.eqb action "allCourses" then
       bind (getAllItemsDB tableName) (fun allCourses =>
         if truthy (dot_error allCourses) then
           ret (failure 500 (unable (VStr action) (dot_error allCourses)))
         else
           ret {| statusCode := 200;
                  body := JSON_stringify
                            [("success", VBool true);
                             ("action", VStr action);
                             ("allCourses", allCourses_value allCourses)] |})
     else if String.eqb action "addCourse" then
       bind (putItemDB query tableName) (fun addCourse =>
         if truthy (dot_error addCourse) then
           ret (failure 500 (unable (VStr action) (dot_error addCourse)))
         else ret (succeeded (VStr action)))
     else if String.eqb action "editCourse" then
       bind (updateItemDB query tableName) (fun editCourse =>
         if truthy (dot_error editCourse) then
           ret (failure 500 (unable (VStr action) (dot_error editCourse)))
         else ret (succeeded (VStr action)))
     else if String.eqb action "removeCourse" then
       bind (deleteItemDB (VNum (Number (prop query "id"))) tableName)
            (fun removeCourse =>
         if truthy (dot_error removeCourse) then
           ret (failure 500 (unable (VStr action) (dot_error removeCourse)))
         else ret (succeeded (VStr action)))
     else
       ret (failure 400 (not_found_message (VStr action)))) p1.
Proof.
  intros Hn Ht action Ha. unfold requestHandler, bind at 1.
  rewrite Hn, Ht, Ha. cbn [negb strict_eq_str].
  by repeat case_match.
Qed.

Lemma requestHandler_outcome (query : object) (p : process W) :
  (exists e p', getTableName p = (Throw e, p')
                /\ requestHandler (Some query) p = (Throw e, p'))
  \/ (exists tableName p1 resp p',
        getTableName p = (Return tableName, p1)
        /\ requestHandler (Some query) p = (Return resp, p')
        /\ (statusCode resp = 200 \/ statusCode resp = 400
            \/ statusCode resp = 500)
        /\ store_calls_only p1 p').
Proof.
  assert (Hnone : forall p0 : process W, store_calls_only p0 p0)
    by (intros p0; exists []; by rewrite app_nil_r).
  destruct (getTableName p) as [[tableName|e] p1] eqn:Hn.
  2: { left. exists e, p1. split; [done|].
       unfold requestHandler, bind at 1. by rewrite Hn. }
  right. exists tableName, p1.
  unfold requestHandler, bind at 1. rewrite Hn.
  destruct (truthy tableName); cbn [negb];
    [| eexists _, _; split; [reflexivity|]; split; [reflexivity|]; split; [auto | apply Hnone]].
  destruct (strict_eq_str _ "allCourses").
  { destruct (getAllItemsDB_returns tableName p1) as (r & p' & Hr & Hcalls).
    unfold bind at 1. rewrite Hr.
    destruct (truthy (dot_error r)); eexists _, _;
      (split; [reflexivity|]); (split; [reflexivity|]); (split; [auto | done]). }
  destruct (strict_eq_str _ "addCourse").
  { destruct (putItemDB_returns query tableName p1) as (r & p' & Hr & Hcalls).
    unfold bind at 1. rewrite Hr.
    destruct (truthy (dot_error r)); eexists _, _;
      (split; [reflexivity|]); (split; [reflexivity|]); (split; [auto | done]). }
  destruct (strict_eq_str _ "editCourse").
  { destruct (updateItemDB_returns query tableName p1) as (r & p' & Hr & Hcalls).
    unfold bind at 1. rewrite Hr.
    destruct (truthy (dot_error r)); eexists _, _;
      (split; [reflexivity|]); (split; [reflexivity|]); (split; [auto | done]). }
  destruct (strict_eq_str _ "removeCourse").
  { destruct (deleteItemDB_returns (VNum (Number (prop query "id"))) tableName p1)
      as (r & p' & Hr & Hcalls).
    unfold bind at 1. rewrite Hr.
    destruct (truthy (dot_error r)); eexists _, _;
      (split; [reflexivity|]); (split; [reflexivity|]); (split; [auto | done]). }
  eexists _, _. split; [reflexivity|]. split; [reflexivity|]. split; [auto | apply Hnone].
Qed.

(** X4: the router answers 200, 400 or 500 and nothing else, and it throws
    exactly when table resolution throws (the discovery call fails, or the
    first instance has no attributes): that failure is not caught. *)
Theorem router_statuses (query : option object) (p : process W) :
  (forall resp p',
      requestHandler query p = (Return resp, p') ->
      statusCode resp = 200 \/ statusCode resp = 400 \/ statusCode resp = 500)
  /\ (forall e p',
      requestHandler query p = (Throw e, p')
      <-> (exists q, query = Some q) /\ getTableName p = (Throw e, p')).
Proof.
  destruct query as [q|].
  - destruct (requestHandler_outcome q p)
      as [(e & p1 & Hn & Hr) | (tn & p1 & resp & p2 & Hn & Hr & Hs & _)];
      rewrite Hr, Hn; split.
    + done.
    + intros e' p'. split; [intros [= <- <-]; split; eauto | by intros [_ [= -> ->]]].
    + by intros ? ? [= <- <-].
    + intros e' p'. split; [done | by intros [_ ?]].
  - split.
    + intros resp p' [= <- <-]. auto.
    + intros e p'. split; [done | by intros [[q ?] _]].
Qed.

(** X5: for a query object, the table name is resolved once, first: the
    calls of a request are the discovery call followed by store calls
    only, whatever the outcome. *)
Theorem table_resolved_once_first (query : object) (p : process W) :
  exists l,
    calls (requestHandler (Some query) p).2
    = calls p ++ Discover findDbNameCommand :: l
    /\ Forall (fun c => is_store_call c = true) l.
Proof.
  destruct (getTableName_call p) as (c & w & Hcall).
  destruct (requestHandler_outcome query p)
    as [(e & p1 & Hn & Hr) | (tn & p1 & resp & p2 & Hn & Hr & _ & l & Hl & Hstore)];
    rewrite Hr; rewrite Hn in Hcall; injection Hcall as _ ->.
  - exists []. by split.
  - exists l. split; [|done]. cbn [snd]. rewrite Hl. simpl.
    by rewrite <- app_assoc.
Qed.




(** X9: the gateway always sends a response.  It passes on the status and
    the body of the router, and answers 404, with the text of the error,
    exactly when table resolution throws; so its statuses are 200, 400,
    500 and 404. *)
Theorem gateway_always_answers (describe : exn -> string) (query : object)
    (p : process W) :
  exists res p',
    app_all describe query p = (Return res, p')
    /\ ((exists resp,
           requestHandler (Some query) p = (Return resp, p')
           /\ res = {| res_status := statusCode resp;
                       res_sent := SentText (body resp) |}
           /\ (res_status res = 200 \/ res_status res = 400
               \/ res_status res = 500))
        \/ (exists e,
              getTableName p = (Throw e, p')
              /\ res = {| res_status := 404;
                          res_sent :=
                            SentObject
                              [("message",
                                VStr ("API server not reachable "
                                      +:+ describe e))] |})).
Proof.
  unfold app_all, try_catch, bind at 1.
  destruct (requestHandler_outcome query p)
    as [(e & p1 & Hn & Hr) | (tn & p1 & resp & p2 & Hn & Hr & Hs & _)];
    rewrite Hr.
  - eexists _, _. split; [reflexivity|]. right. by exists e.
  - eexists _, _. split; [reflexivity|]. left. by exists resp.
Qed.

End Dispatch.


(** ** Further properties on the reference store *)



Lemma cloud_delete_key (z : Z) (name : value) (w : Cloud) t tb :
  safe z ->
  find_table name (tables w) = Some (t, tb) ->
  faults w (clock w) = None ->
  cloud_delete (delete_command (VNum (Int z)) name) w
  = (Return DeleteOutput, sent w (<[t := delete z tb]> (tables w))).
Proof.
  intros Hz Ht Hf. unfold cloud_delete.
  rewrite request_marshalled by (repeat constructor; by apply marshall_key).
  cbn [delete_command delete_TableName delete_Key Number].
  by rewrite Hf, Ht, key_of_singleton.
Qed.


Lemma cloud_scan_tables (c : ScanCommand) (w : Cloud) :
  tables (cloud_scan c w).2 = tables w.
Proof.
  unfold cloud_scan, request. simpl.
  destruct (faults w (clock w)); [done|].
  by destruct (find_table _ _) as [[t tb]|].
Qed.

(** Reading never writes: a listing leaves the tables as they are, whatever
    fails. *)
Lemma fetches_cloud_tables (name : value) (items : list object) :
  forall p : process Cloud,
    tables (world (mapM (fun item => getItemDB (prop item "ID") name) items p).2)
    = tables (world p).
Proof.
  induction items as [|item items IH]; intros p; simpl; [done|].
  destruct (getItemDB_cloud_frame (prop item "ID") name p)
    as (c & p1 & Hc & Hts & _).
  unfold bind at 1. rewrite Hc.
  specialize (IH p1).
  unfold bind at 1.
  destruct (mapM _ items p1) as [[cs|e] p2]; simpl in *; congruence.
Qed.

Lemma getAllItemsDB_cloud_tables (name : value) (p : process Cloud) :
  tables (world (getAllItemsDB name p).2) = tables (world p).
Proof.
  unfold getAllItemsDB, try_catch. cbv zeta. unfold bind at 1, send.
  cbn [send_scan cloud_store].
  pose proof (cloud_scan_tables
                {| scan_TableName := name; ProjectionExpression := "ID" |}
                (world p)) as Hscan.
  destruct (cloud_scan _ _) as [[out|e] w]; [|done].
  pose proof (fetches_cloud_tables name (Items out)
                (after p w (Scan {| scan_TableName := name;
                                    ProjectionExpression := "ID" |}))) as Hf.
  unfold bind at 1.
  destruct (mapM _ _ _) as [[cs|e] p2]; simpl in *; congruence.
Qed.

Lemma fetched_all (f : nat -> option string) tb (ks : list Z) (c : nat) :
  (forall i, (i < length ks)%nat -> f (c + i)%nat = None) ->
  fetched f tb c ks = (fun z => Some {| Item := tb !! z |}) <$> ks.
Proof.
  revert c. induction ks as [|z ks IH]; intros c Hq; [done|].
  simpl. pose proof (Hq 0%nat) as H0. rewrite Nat.add_0_r in H0.
  rewrite H0 by (simpl; lia). f_equal. apply IH. intros i Hi.
  replace (S c + i)%nat with (c + S i)%nat by lia. apply Hq. simpl; lia.
Qed.

Lemma omap_id_Some {A B : Type} (g : A -> B) (l : list A) :
  omap id ((fun x => Some (g x)) <$> l) = g <$> l.
Proof. induction l as [|x l IH]; simpl; [done|]. by f_equal. Qed.

Lemma listing_cloud_all (t : string) (tb : gmap Z object)
    (p : process Cloud) :
  tables (world p) !! t = Some tb ->
  keyed tb ->
  quiet_from (world p) (clock (world p)) ->
  exists coursesList p',
    getAllItemsDB (VStr t) p = (Return (Fulfilled coursesList), p')
    /\ coursesList ≡ₚ ObjectOf <$> (map_to_list tb).*2
    /\ length coursesList = size tb
    /\ tables (world p') = tables (world p).
Proof.
  intros Htb Hkeyed Hquiet.
  pose proof (find_table_Some t tb _ Htb) as Hfind.
  set (scan := {| scan_TableName := VStr t; ProjectionExpression := "ID" |}).
  destruct (fetches_cloud (VStr t) t tb _ _ (scanned_keys tb Hkeyed)
              (after p (sent (world p) (tables (world p))) (Scan scan)) Hfind)
    as (p' & Hfetch & Harr).
  pose proof (getAllItemsDB_listing (VStr t) p p' _ _ _
                (cloud_scan_ids (VStr t) (world p) t tb (Hquiet _ (le_n _)) Hfind)
                Hfetch) as Hlist.
  assert (Hperm : foldl push_course []
                    (arrive (arrivals p')
                       (fetched (faults (world p)) tb (S (clock (world p)))
                          (map_to_list tb).*1))
                  ≡ₚ ObjectOf <$> (map_to_list tb).*2).
  { rewrite coursesList_Permutation, fetched_all.
    - rewrite omap_id_Some, <- !list_fmap_compose.
      assert (Heq : (dot_Item ∘ (fun z => {| Item := tb !! z |}) ∘ fst)
                      <$> map_to_list tb
                    = (ObjectOf ∘ snd) <$> map_to_list tb); [|by rewrite Heq].
      apply Forall_fmap_ext, Forall_forall.
      intros [z it] Hin. apply elem_of_map_to_list in Hin.
      unfold dot_Item. simpl. by rewrite Hin.
    - intros i _. apply Hquiet. lia. }
  eexists _, p'. split; [exact Hlist|]. split; [exact Hperm|]. split.
  - by rewrite Hperm, !length_fmap, length_map_to_list.
  - pose proof (getAllItemsDB_cloud_tables (VStr t) p) as Hts.
    by rewrite Hlist in Hts.
Qed.

(** X10: on a table whose records carry their key, with the transport up, a
    listing returns the records of the table, all of them and nothing
    else, in some order; an empty table gives the empty list.  The tables
    are left as they were. *)
Theorem listing_returns_the_table (t : string) (tb : gmap Z object)
    (p : process Cloud) :
  tables (world p) !! t = Some tb ->
  keyed tb ->
  quiet_from (world p) (clock (world p)) ->
  exists coursesList p',
    getAllItemsDB (VStr t) p = (Return (Fulfilled coursesList), p')
    /\ coursesList ≡ₚ ObjectOf <$> (map_to_list tb).*2
    /\ length coursesList = size tb
    /\ tables (world p') = tables (world p).
Proof. apply listing_cloud_all. Qed.

Lemma ObjectOf_inj (o1 o2 : object) : ObjectOf o1 = ObjectOf o2 -> o1 = o2.
Proof. intros [= Heq]. apply map_to_list_inj. by rewrite Heq. Qed.


(** X12: after such a removeCourse, a listing of the table (its records
    carrying their key, the transport up) returns the other records and
    not the removed one. *)
Theorem removed_course_is_not_listed (query : object) (p p1 : process Cloud)
    (t : string) (tb : gmap Z object) (z : Z) :
  getTableName p = (Return (VStr t), p1) ->
  t <> EmptyString ->
  prop query "action" = VStr "removeCourse" ->
  Number (prop query "id") = Int z ->
  safe z ->
  tables (world p1) !! t = Some tb ->
  keyed tb ->
  quiet_from (world p1) (clock (world p1)) ->
  exists coursesList p2,
    getAllItemsDB (VStr t) (requestHandler (Some query) p).2
    = (Return (Fulfilled coursesList), p2)
    /\ coursesList ≡ₚ ObjectOf <$> (map_to_list (delete z tb)).*2
    /\ (forall it, tb !! z = Some it -> ObjectOf it ∉ coursesList).
Proof.
  intros Hn Hne Ha Hz Hsafe Htb Hkeyed Hquiet.
  rewrite (requestHandler_resolved query p p1 (VStr t) Hn (truthy_VStr t Hne) _ Ha).
  cbn [String.eqb Ascii.eqb Bool.eqb]. unfold bind at 1.
  rewrite deleteItemDB_sent. cbv zeta. rewrite Hz.
  cbn [send_delete cloud_store].
  rewrite (cloud_delete_key z (VStr t) (world p1) t tb Hsafe
             (find_table_Some t tb _ Htb) (Hquiet _ (le_n _))).
  cbn [fst snd settle dot_error truthy ret].
  set (p' := after p1 _ _).
  assert (Hkeyed' : keyed (delete z tb)).
  { intros z' it Hit. apply lookup_delete_Some in Hit as [_ Hit]. eauto. }
  destruct (listing_cloud_all t (delete z tb) p')
    as (coursesList & p2 & Hlist & Hperm & _ & _); [| done | |].
  - unfold p'. simpl. apply lookup_insert_eq.
  - intros k Hk. apply Hquiet. unfold p' in Hk. simpl in Hk. lia.
  - exists coursesList, p2. split; [done|]. split; [done|].
    intros it Hit Hin. rewrite Hperm in Hin.
    apply list_elem_of_fmap_1 in Hin as (it' & Heq & Hin).
    apply ObjectOf_inj in Heq as <-.
    apply list_elem_of_fmap_1 in Hin as ([z' it'] & -> & Hin).
    apply elem_of_map_to_list, lookup_delete_Some in Hin as [Hne' Hin].
    simpl in *. destruct (Hkeyed z it' Hit) as [Hid _].
    destruct (Hkeyed z' it' Hin) as [Hid' _]. congruence.
Qed.


(** *** What the writes leave in the tables *)

#[local] Set Warnings "-clear-no-such-hyp".


Lemma dom_edited (courseObject : object) (coverArt courseUrl : string)
    (start : object) :
  dom (edited courseObject coverArt courseUrl start)
  = {[ "Author"; "CoverArt"; "CourseUrl"; "CourseName" ]} ∪ dom start.
Proof. unfold edited. rewrite !dom_insert_L. set_solver. Qed.


(** X14: a fulfilled [updateItemDB] on an id that is not in the table creates
    the record: the new record carries the id as its [ID] and the four
    submitted fields, and is what the operation returns. *)
Theorem edit_of_unknown_id_creates (courseObject : object) (tableName : value)
    (p p1 : process Cloud) response (t : string) (tb : gmap Z object) (z : Z) :
  tableName = VStr t ->
  tables (world p) !! t = Some tb ->
  Number (prop courseObject "id") = Int z ->
  tb !! z = None ->
  updateItemDB courseObject tableName p = (Return (Fulfilled response), p1) ->
  exists coverArt courseUrl new,
    decodeURIComponent (prop courseObject "courseCoverArt") = Return coverArt
    /\ decodeURIComponent (prop courseObject "courseUrl") = Return courseUrl
    /\ new = edited courseObject coverArt courseUrl {[ "ID" := VNum (Int z) ]}
    /\ tables (world p1) !! t = Some (<[z := new]> tb)
    /\ new !! "ID" = Some (VNum (Int z))
    /\ dom new = course_attributes
    /\ update_Attributes response = Some new.
Proof.
  intros -> Htb Hz Hnone Hupd.
  apply updateItemDB_fulfilled in Hupd
    as (coverArt & url & t' & tb' & z' & Hc & Hu & [= <-] & Htb' & Hz' & Hsafe & Hnew).
  assert (tb' = tb) as -> by congruence.
  assert (z' = z) as -> by congruence.
  rewrite Hnone in Hnew. cbv zeta in Hnew. destruct Hnew as (Hattr & Hworld & _).
  eexists coverArt, url, _. repeat (split; [done|]). split; [|split; [|split]].
  - rewrite Hworld. apply lookup_insert_eq.
  - destruct (edited_lookup courseObject coverArt url {[ "ID" := VNum (Int z) ]})
      as (_ & _ & _ & _ & Hframe).
    rewrite Hframe by (by apply (bool_decide_unpack _)).
    apply lookup_singleton_eq.
  - rewrite dom_edited, dom_singleton_L. unfold course_attributes. set_solver.
  - done.
Qed.

(** X15: URL fields without percent sign are stored as submitted: a fulfilled
    [putItemDB] leaves them unchanged in the record. *)
Theorem plain_urls_are_stored_verbatim (courseObject : object)
    (tableName : value) (p p1 : process Cloud) response
    (courseCoverArt courseUrl : string) :
  courseObject !! "courseCoverArt" = Some (VStr courseCoverArt) ->
  courseObject !! "courseUrl" = Some (VStr courseUrl) ->
  plain courseCoverArt = true ->
  plain courseUrl = true ->
  putItemDB courseObject tableName p = (Return (Fulfilled response), p1) ->
  exists t tb z it,
    tableName = VStr t
    /\ tables (world p1) !! t = Some tb
    /\ Number (prop courseObject "id") = Int z
    /\ tb !! z = Some it
    /\ it !! "CoverArt" = Some (VStr courseCoverArt)
    /\ it !! "CourseUrl" = Some (VStr courseUrl).
Proof.
  intros Hcover Hurl Hpc Hpu Hput.
  apply putItemDB_fulfilled in Hput
    as (coverArt & url & t & tb & z & Hc & Hu & -> & Htb & Hz & Hsafe & ->).
  unfold prop in Hc, Hu. rewrite Hcover in Hc. rewrite Hurl in Hu.
  rewrite decodeURIComponent_plain in Hc, Hu by done.
  injection Hc as <-. injection Hu as <-.
  exists t, (<[z := written_item courseObject courseCoverArt courseUrl]> tb), z,
    (written_item courseObject courseCoverArt courseUrl).
  cbn [after world sent tables]. rewrite !lookup_insert_eq.
  split_and!;
    first [done
          | unfold written_item;
            by rewrite !lookup_insert_ne, lookup_insert_eq by done].
Qed.

(** *** The catalogue invariant *)














(** ** The further statements at work on the scenarios *)

Example gateway_without_parameters :
  (app_all describe_Error ∅ empty_lab).1
  = Return {| res_status := 400;
              res_sent :=
                SentText (JSON_stringify
                            [("success", VBool false);
                             ("error",
                              VStr "Invalid Request: Action undefined undefined not found")]) |}.
Proof. reflexivity. Qed.

Example gateway_discovery_down :
  (app_all describe_Error list_query discovery_down).1
  = Return {| res_status := 404;
              res_sent :=
                SentObject
                  [("message",
                    VStr "API server not reachable Error: getaddrinfo ENOTFOUND")] |}.
Proof. reflexivity. Qed.

Lemma malformed_payload_witness :
  putItemDB add_discount (VStr "Courses") empty_lab
  = (Return (ErrorObject "URI malformed"), empty_lab)
  /\ updateItemDB add_discount (VStr "Courses") empty_lab
     = (Return (ErrorObject "URI malformed"), empty_lab).
Proof.
  apply (malformed_payload_is_never_sent add_discount (VStr "Courses") empty_lab).
  left. exists URIError. reflexivity.
Defined.

Lemma listing_is_scan_then_fetches_witness :
  exists coursesList p',
    getAllItemsDB (VStr "Courses") listing_with_gap
    = (Return (Fulfilled coursesList), p')
    /\ calls p'
       = [Scan (scan_command (VStr "Courses"));
          Get {| get_TableName := VStr "Courses";
                 get_Key := {[ "ID" := VNum (Int 1) ]} |};
          Get {| get_TableName := VStr "Courses";
                 get_Key := {[ "ID" := VNum (Int 0) ]} |}]
    /\ (length coursesList <= 3)%nat.
Proof.
  edestruct (proj1 (listing_is_scan_then_fetches (VStr "Courses") listing_with_gap)
               {| Items := [ {[ "ID" := VNum (Int 1) ]}; ∅;
                             {[ "ID" := VNum (Int 0) ]} ] |})
    as (coursesList & p' & Hlist & Hcalls & Hlen); [reflexivity|].
  exists coursesList, p'. split; [exact Hlist|]. split; [|exact Hlen].
  rewrite Hcalls. reflexivity.
Defined.

Lemma router_statuses_witness :
  requestHandler (Some list_query) discovery_down
  = (Throw (Error "getaddrinfo ENOTFOUND"),
     after discovery_down {| replies := [] |} (Discover findDbNameCommand)).
Proof.
  apply (proj2 (router_statuses (Some list_query) discovery_down)).
  split; [by exists list_query | reflexivity].
Defined.




Lemma listing_returns_the_table_witness :
  exists coursesList p',
    getAllItemsDB (VStr "Courses") algo_lab = (Return (Fulfilled coursesList), p')
    /\ coursesList ≡ₚ [ObjectOf (course 1 "Algo" "/img/a.png" "http://x.test" "Ada")].
Proof.
  destruct (listing_returns_the_table "Courses"
              {[ 1 := course 1 "Algo" "/img/a.png" "http://x.test" "Ada" ]}
              algo_lab)
    as (coursesList & p' & Hlist & Hperm & _ & _).
  - reflexivity.
  - apply keyedb_keyed. reflexivity.
  - intros k _. reflexivity.
  - exists coursesList, p'. split; [exact Hlist|].
    rewrite Hperm. reflexivity.
Defined.


Lemma removed_course_is_not_listed_witness :
  exists coursesList p2,
    getAllItemsDB (VStr "Courses") (requestHandler (Some remove_1) algo_lab).2
    = (Return (Fulfilled coursesList), p2)
    /\ ObjectOf (course 1 "Algo" "/img/a.png" "http://x.test" "Ada") ∉ coursesList.
Proof.
  destruct (removed_course_is_not_listed remove_1 algo_lab
              (after algo_lab (world algo_lab) (Discover findDbNameCommand))
              "Courses"
              {[ 1 := course 1 "Algo" "/img/a.png" "http://x.test" "Ada" ]} 1)
    as (coursesList & p2 & Hlist & _ & Hnot).
  - reflexivity.
  - discriminate.
  - reflexivity.
  - reflexivity.
  - unfold safe. vm_compute. split; discriminate.
  - reflexivity.
  - apply keyedb_keyed. reflexivity.
  - intros k _. reflexivity.
  - exists coursesList, p2. split; [exact Hlist|]. apply Hnot. reflexivity.
Defined.


Lemma edit_of_unknown_id_creates_witness :
  exists new,
    tables (world (updateItemDB edit_unknown (VStr "Courses") algo_lab).2)
      !! "Courses"
    = Some (<[ 9 := new ]>
              {[ 1 := course 1 "Algo" "/img/a.png" "http://x.test" "Ada" ]})
    /\ new = course 9 "Sets" "/img/s.png" "http://s.test" "Eve".
Proof.
  destruct (edit_of_unknown_id_creates edit_unknown (VStr "Courses") algo_lab
              (updateItemDB edit_unknown (VStr "Courses") algo_lab).2
              {| update_Attributes :=
                   Some (course 9 "Sets" "/img/s.png" "http://s.test" "Eve") |}
              "Courses"
              {[ 1 := course 1 "Algo" "/img/a.png" "http://x.test" "Ada" ]} 9)
    as (coverArt & url & new & _ & _ & _ & Htb & _ & _ & Hattr);
    [reflexivity.. |].
  exists new. split; [exact Htb | by injection Hattr].
Defined.

Lemma plain_urls_are_stored_verbatim_witness :
  exists tb it,
    tables (world (putItemDB add_graphs_as_1 (VStr "Courses") algo_lab).2)
      !! "Courses" = Some tb
    /\ tb !! 1 = Some it
    /\ it !! "CoverArt" = Some (VStr "/img/g.png")
    /\ it !! "CourseUrl" = Some (VStr "http://y.test").
Proof.
  destruct (plain_urls_are_stored_verbatim add_graphs_as_1 (VStr "Courses")
              algo_lab
              (putItemDB add_graphs_as_1 (VStr "Courses") algo_lab).2 PutOutput
              "/img/g.png" "http://y.test")
    as (t & tb & z & it & Ht & Htb & Hz & Hit & Hc & Hu); [reflexivity.. |].
  injection Ht as <-. vm_compute in Hz. injection Hz as <-.
  exists tb, it. split; [exact Htb|]. split; [exact Hit|].
  split; [exact Hc | exact Hu].
Defined.


